(** * OpenTrackIO property decoders (src/OpenTrackIOProperties.cpp)

    A shallow embedding of the eleven [X::parse] decoders of
    [opentrackio::opentrackioproperties].  A decoder receives the JSON
    document and the caller's error vector by reference; here the vector is
    threaded explicitly: a decoder maps the vector it receives to its return
    value and the vector it leaves behind. *)

From Stdlib Require Import ZArith List String Ascii Bool Lia SpecFloat.
Import ListNotations.

Local Open Scope string_scope.
Local Open Scope list_scope.
Local Open Scope Z_scope.

Set Implicit Arguments.
Set Warnings "-register-all".

(** ** JSON values (nlohmann::json) *)

(** A C++ [double] is a binary64 value, in the representation of the
    Standard Library's [SpecFloat] (sign, mantissa and exponent, or zero,
    infinity, NaN). *)
Definition double : Type := spec_float.

(** The conversion of an integer to [double] ([static_cast<double>], as
    [get<double>()] does on an integer value): the nearest binary64, ties going
    to the even mantissa. *)
Definition double_of_integer (z : Z) : double := binary_normalize 53 1024 z 0 false.

Arguments double_of_integer : simpl never.

(** An object is a [std::map]: keys are unique, [find] returns the first
    binding of a key.  An integer value ([number_integer], [number_unsigned])
    is [JInt]; a floating-point value ([number_float]) is [JFloat] and holds
    the binary64 the parser stored. *)
Inductive json : Type :=
| JNull
| JBool (b : bool)
| JInt (z : Z)
| JFloat (d : double)
| JString (s : string)
| JArray (items : list json)
| JObject (fields : list (string * json)).

Fixpoint lookup (key : string) (fields : list (string * json)) : option json :=
  match fields with
  | [] => None
  | (k, v) :: rest => if String.eqb key k then Some v else lookup key rest
  end.

(** [j.find(key)], [None] standing for [end()]; a value that is not an
    object has no members. *)
Definition find (j : json) (key : string) : option json :=
  match j with
  | JObject fields => lookup key fields
  | _ => None
  end.

(** [j.contains(key)]. *)
Definition contains (j : json) (key : string) : bool :=
  match find j key with Some _ => true | None => false end.

Definition is_object (j : json) : bool :=
  match j with JObject _ => true | _ => false end.

Definition is_array (j : json) : bool :=
  match j with JArray _ => true | _ => false end.

(** [j[key]] on a const value.  The library defines it only where [j] is an
    object that holds [key] (elsewhere it throws or fails an assertion); the
    decoders call it under a [contains] guard, and the one unguarded call, in
    [Protocol::parse], is treated there.  [JNull] stands in off that domain. *)
Definition at_key (j : json) (key : string) : json :=
  match find j key with Some v => v | None => JNull end.

Notation "j @ key" := (at_key j key) (at level 25, left associativity).

(** The value [j] without its member [key]. *)
Definition erase (key : string) (j : json) : json :=
  match j with
  | JObject fields =>
      JObject (filter (fun kv => negb (String.eqb key (fst kv))) fields)
  | _ => j
  end.

(** ** Regular expressions (std::regex, ECMAScript grammar)

    [std::regex_match] succeeds when the whole string matches; the matcher
    below decides that with Brzozowski derivatives. *)
Module Regex.

Inductive regex : Type :=
| Void
| Eps
| Class (p : ascii -> bool)
| Seq (r1 r2 : regex)
| Alt (r1 r2 : regex)
| Star (r : regex).

Fixpoint nullable (r : regex) : bool :=
  match r with
  | Void => false
  | Eps => true
  | Class _ => false
  | Seq r1 r2 => nullable r1 && nullable r2
  | Alt r1 r2 => nullable r1 || nullable r2
  | Star _ => true
  end.

Fixpoint deriv (c : ascii) (r : regex) : regex :=
  match r with
  | Void => Void
  | Eps => Void
  | Class p => if p c then Eps else Void
  | Seq r1 r2 =>
      if nullable r1
      then Alt (Seq (deriv c r1) r2) (deriv c r2)
      else Seq (deriv c r1) r2
  | Alt r1 r2 => Alt (deriv c r1) (deriv c r2)
  | Star r1 => Seq (deriv c r1) (Star r1)
  end.

Fixpoint regex_match (s : string) (r : regex) : bool :=
  match s with
  | EmptyString => nullable r
  | String c rest => regex_match rest (deriv c r)
  end.

(** Pattern syntax. *)
Definition in_range (lo hi : ascii) (c : ascii) : bool :=
  (nat_of_ascii lo <=? nat_of_ascii c)%nat && (nat_of_ascii c <=? nat_of_ascii hi)%nat.

(** [x] *)
Definition chr (x : ascii) : regex := Class (Ascii.eqb x).

(** A literal run of characters. *)
Fixpoint lit (s : string) : regex :=
  match s with
  | EmptyString => Eps
  | String c rest => Seq (chr c) (lit rest)
  end.

(** [.]: any character but a line terminator. *)
Definition any : regex :=
  Class (fun c => negb (Ascii.eqb c "010" || Ascii.eqb c "013")).

(** [r+] *)
Definition plus (r : regex) : regex := Seq r (Star r).

(** [r{n}] *)
Fixpoint times (n : nat) (r : regex) : regex :=
  match n with
  | O => Eps
  | S m => Seq r (times m r)
  end.

(** [[0-9]] *)
Definition digit : regex := Class (in_range "0" "9").

(** [[0-9a-f]] *)
Definition hex_lower : regex :=
  Class (fun c => in_range "0" "9" c || in_range "a" "f" c).

(** [[A-F0-9]] *)
Definition hex_upper : regex :=
  Class (fun c => in_range "A" "F" c || in_range "0" "9" c).

End Regex.

(** [^urn:uuid:[0-9a-f]{8}-[0-9a-f]{4}-[0-9a-f]{4}-[0-9a-f]{4}-[0-9a-f]{12}$] *)
Definition uuid_pattern : Regex.regex :=
  Regex.Seq (Regex.lit "urn:uuid:")
    (Regex.Seq (Regex.times 8 Regex.hex_lower)
       (Regex.Seq (Regex.chr "-")
          (Regex.Seq (Regex.times 4 Regex.hex_lower)
             (Regex.Seq (Regex.chr "-")
                (Regex.Seq (Regex.times 4 Regex.hex_lower)
                   (Regex.Seq (Regex.chr "-")
                      (Regex.Seq (Regex.times 4 Regex.hex_lower)
                         (Regex.Seq (Regex.chr "-")
                            (Regex.times 12 Regex.hex_lower))))))))).

(** [^[0-9]+.[0-9]+.[0-9]+$]: the two separators are the unescaped [.] of the
    source. *)
Definition version_pattern : Regex.regex :=
  Regex.Seq (Regex.plus Regex.digit)
    (Regex.Seq Regex.any
       (Regex.Seq (Regex.plus Regex.digit)
          (Regex.Seq Regex.any (Regex.plus Regex.digit)))).

(** [^([A-F0-9]{2}:){5}[A-F0-9]{2}$] *)
Definition mac_pattern : Regex.regex :=
  Regex.Seq
    (Regex.times 5 (Regex.Seq (Regex.times 2 Regex.hex_upper) (Regex.chr ":")))
    (Regex.times 2 Regex.hex_upper).

(** ** The error vector

    [std::vector<std::string>& errors] is passed to every decoder and helper;
    a computation takes the vector and returns its result with the vector it
    leaves. *)
Definition Errors : Type := list string.

Definition M (A : Type) : Type := Errors -> A * Errors.

Definition ret {A} (a : A) : M A := fun errors => (a, errors).

Definition bind {A B} (m : M A) (f : A -> M B) : M B :=
  fun errors => let (a, errors') := m errors in f a errors'.

(** [errors.emplace_back(msg)] *)
Definition emplace_back (msg : string) : M unit :=
  fun errors => (tt, errors ++ [msg]).

Declare Scope decode_scope.
Delimit Scope decode_scope with decode.
Notation "x <- m ;; k" := (bind m (fun x => k))
  (at level 61, m at next level, right associativity) : decode_scope.
Notation "m ;; k" := (bind m (fun _ => k))
  (at level 61, right associativity) : decode_scope.
Local Open Scope decode_scope.

Definition has_value {A} (o : option A) : bool :=
  match o with Some _ => true | None => false end.

(** ** Validation helpers (opentrackio-cpp/OpenTrackIOHelper.h) *)
Module OpenTrackIOHelpers.

(** Modelled from the spec: [checkTypeAndSetField<T>] is declared in
    OpenTrackIOHelper.h, which is not part of the sources at hand.  It
    tests the JSON value against the kind of the target type [T] and, on
    success, stores the value; one function per target type below, the
    result being the stored value. *)
Definition checkTypeAndSetField_string (jsonVal : json) : option string :=
  match jsonVal with JString s => Some s | _ => None end.

Definition checkTypeAndSetField_bool (jsonVal : json) : option bool :=
  match jsonVal with JBool b => Some b | _ => None end.

Definition checkTypeAndSetField_double (jsonVal : json) : option double :=
  match jsonVal with
  | JInt z => Some (double_of_integer z)
  | JFloat d => Some d
  | _ => None
  end.

Definition in_bounds (lo hi : Z) (jsonVal : json) : option Z :=
  match jsonVal with
  | JInt z => if (lo <=? z) && (z <=? hi) then Some z else None
  | _ => None
  end.

Definition checkTypeAndSetField_uint16 : json -> option Z := in_bounds 0 65535.
Definition checkTypeAndSetField_uint32 : json -> option Z := in_bounds 0 4294967295.
Definition checkTypeAndSetField_int64 : json -> option Z :=
  in_bounds (-9223372036854775808) 9223372036854775807.

(** The target of the fields declared with the type name "integer". *)
Definition checkTypeAndSetField_integer (jsonVal : json) : option Z :=
  match jsonVal with JInt z => Some z | _ => None end.

(** Modelled from the spec: populate-sequence "attempts to coerce every
    element to the expected element type; returns failure (boolean) on the
    first incompatible element".  The second component is the sequence as
    populated so far. *)
Fixpoint populate (items : list json) (vec : list double) : bool * list double :=
  match items with
  | [] => (true, vec)
  | item :: rest =>
      match checkTypeAndSetField_double item with
      | Some d => populate rest (vec ++ [d])
      | None => (false, vec)
      end
  end.

Definition iterateJsonArrayAndPopulateVector (jsonVal : json) : bool * list double :=
  match jsonVal with
  | JArray items => populate items []
  | _ => (false, [])
  end.

(** [std::vector<double>] targets. *)
Definition checkTypeAndSetField_vector_double (jsonVal : json) : option (list double) :=
  if is_array jsonVal
  then let (ok, vec) := iterateJsonArrayAndPopulateVector jsonVal in
       if ok then Some vec else None
  else None.

(** Modelled from the spec: assign-if-present.  "if field-name absent,
    no-op, no error.  If present but type-mismatched against expected-kind,
    append a descriptive error and leave target absent.  Otherwise assign."
    [check] is the instance of [checkTypeAndSetField] at the target's
    type; the result is the target after the call. *)
Definition assignField {T} (check : json -> option T) (j : json) (fieldStr : string)
    (field : option T) (typeStr : string) : M (option T) :=
  if contains j fieldStr
  then match check (j @ fieldStr) with
       | Some temp => ret (Some temp)
       | None =>
           emplace_back ("field: " ++ fieldStr ++ " isn't of type: " ++ typeStr)%string ;;
           ret None
       end
  else ret field.

(** Modelled from the spec: assign-if-matches-pattern.  "as above, plus a
    regex-style full-string match; mismatch is reported as a distinct error
    category from type mismatch." *)
Definition assignRegexField (j : json) (fieldStr : string) (field : option string)
    (pattern : Regex.regex) : M (option string) :=
  if contains j fieldStr
  then match checkTypeAndSetField_string (j @ fieldStr) with
       | None =>
           emplace_back ("field: " ++ fieldStr ++ " isn't of type: string")%string ;;
           ret None
       | Some temp =>
           if Regex.regex_match temp pattern
           then ret (Some temp)
           else emplace_back ("field: " ++ fieldStr ++ " doesn't match required pattern")%string ;;
                ret None
       end
  else ret field.

End OpenTrackIOHelpers.
Import OpenTrackIOHelpers.

(** ** Primitive value types (opentrackio-cpp/OpenTrackIOTypes.h)

    The value types of [opentrackiotypes] and their [parse] functions are
    declared outside this translation unit and are taken as parameters.  A
    primitive parser receives the JSON node and the error vector and only
    appends to the vector: it is given as the value it returns together with
    the messages it appends.  [Encoders] and [RawEncoders] are the types of
    [Lens::encoders] and [Lens::rawEncoders], with the instances of
    [checkTypeAndSetField] at those types. *)
Class PrimitiveTypes : Type := {
  Dimensions : Type;
  Rational : Type;
  Timestamp : Type;
  Timecode : Type;
  Transform : Type;
  Encoders : Type;
  RawEncoders : Type;
  Dimensions_parse : json -> option Dimensions * list string;
  Rational_parse : json -> option Rational * list string;
  Timestamp_parse : json -> option Timestamp * list string;
  Timecode_parse : json -> option Timecode * list string;
  Transform_parse : json -> option Transform * list string;
  checkTypeAndSetField_Encoders : json -> option Encoders;
  checkTypeAndSetField_RawEncoders : json -> option RawEncoders
}.

(** A call [T::parse(node, errors)] of a primitive parser. *)
Definition call {T} (p : option T * list string) : M (option T) :=
  fun errors => (fst p, errors ++ snd p).

(** ** Property decoders

    Each entity is a module: [t] is the struct, [parse] the static member
    [parse].  The struct declarations are in OpenTrackIOProperties.h; the
    field types below are those the calls of [parse] fix (the target type named
    in each [assignField], the result type of each primitive parser). *)

Module Camera.
Section Decoder.
Context {P : PrimitiveTypes}.

Record t : Type := {
  activeSensorPhysicalDimensions : option Dimensions;
  activeSensorResolution : option Dimensions;
  anamorphicSqueeze : option Rational;
  firmwareVersion : option string;
  label : option string;
  make : option string;
  model : option string;
  serialNumber : option string;
  captureFrameRate : option Rational;
  fdlLink : option string;
  isoSpeed : option Z;
  shutterAngle : option Z
}.

(** Lines 69-73: the range test on the shutter angle just assigned. *)
Definition checkShutterAngle (shutterAngle : option Z) : M (option Z) :=
  match shutterAngle with
  | Some value =>
      if value >? 360000
      then emplace_back "field: shutterAngle is outside the expected range 1 - 360000." ;;
           ret None
      else ret shutterAngle
  | None => ret shutterAngle
  end.

Definition parse (json : json) : M (option t) :=
  if negb (contains json "static") || negb (contains (json @ "static") "camera")
  then ret None
  else if negb (is_object (json @ "static" @ "camera"))
  then emplace_back "field: camera isn't of type: object" ;; ret None
  else
    let cameraJson := json @ "static" @ "camera" in
    activeSensorPhysicalDimensions <-
      (if contains cameraJson "activeSensorPhysicalDimensions"
       then call (Dimensions_parse (cameraJson @ "activeSensorPhysicalDimensions"))
       else ret None) ;;
    activeSensorResolution <-
      (if contains cameraJson "activeSensorResolution"
       then call (Dimensions_parse (cameraJson @ "activeSensorResolution"))
       else ret None) ;;
    anamorphicSqueeze <-
      (if contains cameraJson "anamorphicSqueeze"
       then call (Rational_parse (cameraJson @ "anamorphicSqueeze"))
       else ret None) ;;
    firmwareVersion <- assignField checkTypeAndSetField_string cameraJson "firmwareVersion" None "string" ;;
    label <- assignField checkTypeAndSetField_string cameraJson "label" None "string" ;;
    make <- assignField checkTypeAndSetField_string cameraJson "make" None "string" ;;
    model <- assignField checkTypeAndSetField_string cameraJson "model" None "string" ;;
    serialNumber <- assignField checkTypeAndSetField_string cameraJson "serialNumber" None "string" ;;
    captureFrameRate <-
      (if contains cameraJson "captureFrameRate"
       then call (Rational_parse (cameraJson @ "captureFrameRate"))
       else ret None) ;;
    fdlLink <- assignRegexField cameraJson "fdlLink" None uuid_pattern ;;
    isoSpeed <- assignField checkTypeAndSetField_integer cameraJson "isoSpeed" None "integer" ;;
    shutterAngle <- assignField checkTypeAndSetField_integer cameraJson "shutterAngle" None "integer" ;;
    shutterAngle <- checkShutterAngle shutterAngle ;;
    ret (Some {|
      activeSensorPhysicalDimensions := activeSensorPhysicalDimensions;
      activeSensorResolution := activeSensorResolution;
      anamorphicSqueeze := anamorphicSqueeze;
      firmwareVersion := firmwareVersion;
      label := label;
      make := make;
      model := model;
      serialNumber := serialNumber;
      captureFrameRate := captureFrameRate;
      fdlLink := fdlLink;
      isoSpeed := isoSpeed;
      shutterAngle := shutterAngle
    |}).

End Decoder.
End Camera.

Module Duration.

(** [Duration{{numerator, denominator}}]: a rational of two [uint32_t]. *)
Record t : Type := {
  numerator : Z;
  denominator : Z
}.

Definition parse (json : json) : M (option t) :=
  if negb (contains json "static") || negb (contains (json @ "static") "duration")
  then ret None
  else if negb (is_object (json @ "static" @ "duration"))
  then emplace_back "field: duration isn't of type: object" ;; ret None
  else
    let durationJson := json @ "static" @ "duration" in
    let numerator0 : option Z := None in
    let denominator0 : option Z := None in
    numerator1 <- assignField checkTypeAndSetField_uint32 durationJson "num" numerator0 "uint32" ;;
    (* line 96 assigns "denom" to [numerator] as well *)
    numerator2 <- assignField checkTypeAndSetField_uint32 durationJson "denom" numerator1 "uint32" ;;
    match numerator2, denominator0 with
    | Some n, Some d => ret (Some {| numerator := n; denominator := d |})
    | _, _ =>
        emplace_back "field: duration is missing required fields" ;;
        ret None
    end.

End Duration.

Module GlobalStage.

Record t : Type := {
  e : double;
  n : double;
  u : double;
  lat0 : double;
  lon0 : double;
  h0 : double
}.

(** The lambda [fieldCheckAndAssign]: [None] for [false], the stored value
    for [true]. *)
Definition fieldCheckAndAssign (gsJson : json) (fieldStr : string) : M (option double) :=
  if negb (contains gsJson fieldStr)
  then emplace_back ("field: globalStage is missing require field: " ++ fieldStr)%string ;;
       ret None
  else match checkTypeAndSetField_double (gsJson @ fieldStr) with
       | None =>
           emplace_back ("field: globalStage/" ++ fieldStr ++ " isn't a number")%string ;;
           ret None
       | Some field => ret (Some field)
       end.

(** [a && rest]: [rest] runs only when [a] returned true. *)
Definition and_then {A B} (a : M (option A)) (rest : A -> M (option B)) : M (option B) :=
  r <- a ;;
  match r with
  | Some x => rest x
  | None => ret None
  end.

Definition parse (json : json) : M (option t) :=
  if negb (contains json "globalStage")
  then ret None
  else if negb (is_object (json @ "globalStage"))
  then emplace_back "field: globalStage isn't of type: object" ;; ret None
  else
    let gsJson := json @ "globalStage" in
    and_then (fieldCheckAndAssign gsJson "E") (fun e =>
    and_then (fieldCheckAndAssign gsJson "N") (fun n =>
    and_then (fieldCheckAndAssign gsJson "U") (fun u =>
    and_then (fieldCheckAndAssign gsJson "lat0") (fun lat0 =>
    and_then (fieldCheckAndAssign gsJson "lon0") (fun lon0 =>
    and_then (fieldCheckAndAssign gsJson "h0") (fun h0 =>
    ret (Some {| e := e; n := n; u := u; lat0 := lat0; lon0 := lon0; h0 := h0 |}))))))).

End GlobalStage.

Module Lens.
Section Decoder.
Context {P : PrimitiveTypes}.

Record Distortion : Type := {
  radial : list double;
  tangential : option (list double)
}.

Record Undistortion : Type := {
  undistortion_radial : list double;
  undistortion_tangential : option (list double)
}.

Record DistortionShift : Type := { distortionShift_x : double; distortionShift_y : double }.

Record PerspectiveShift : Type := { perspectiveShift_x : double; perspectiveShift_y : double }.

Record ExposureFalloff : Type := {
  a1 : double;
  a2 : option double;
  a3 : option double
}.

(** [{numerator, denominator}] of two [int64_t]. *)
Record EntrancePupilOffset : Type := { numerator : Z; denominator : Z }.

Record t : Type := {
  firmwareVersion : option string;
  make : option string;
  model : option string;
  nominalFocalLength : option double;
  serialNumber : option string;
  custom : option (list double);
  distortion : option Distortion;
  distortionOverscan : option double;
  distortionScale : option double;
  distortionShift : option DistortionShift;
  encoders : option Encoders;
  entrancePupilOffset : option EntrancePupilOffset;
  exposureFalloff : option ExposureFalloff;
  fStop : option Z;
  focalLength : option double;
  focusDistance : option Z;
  perspectiveShift : option PerspectiveShift;
  rawEncoders : option RawEncoders;
  tStop : option Z;
  undistortion : option Undistortion
}.

(** [Lens lens{}] *)
Definition empty : t := {|
  firmwareVersion := None; make := None; model := None;
  nominalFocalLength := None; serialNumber := None; custom := None;
  distortion := None; distortionOverscan := None; distortionScale := None;
  distortionShift := None; encoders := None; entrancePupilOffset := None;
  exposureFalloff := None; fStop := None; focalLength := None;
  focusDistance := None; perspectiveShift := None; rawEncoders := None;
  tStop := None; undistortion := None
|}.

(** Lines 176-183; [current] is the field of [lens] the block writes, here and
    in the blocks below. *)
Definition parseCustom (lensJson : json) (current : option (list double)) : M (option (list double)) :=
  if contains lensJson "custom" && is_array (lensJson @ "custom")
  then let (ok, vec) := iterateJsonArrayAndPopulateVector (lensJson @ "custom") in
       if negb ok
       then emplace_back "field: lens/custom value isn't of type: double" ;; ret None
       else ret (Some vec)
  else ret current.

(** Lines 185-199. *)
Definition parseDistortion (lensJson : json) (current : option Distortion) : M (option Distortion) :=
  if contains lensJson "distortion"
  then
    radial <- assignField checkTypeAndSetField_vector_double (lensJson @ "distortion") "radial" None "double" ;;
    tangential <- assignField checkTypeAndSetField_vector_double (lensJson @ "distortion") "tangential" None "double" ;;
    match radial with
    | Some value => ret (Some {| radial := value; tangential := tangential |})
    | None => ret current
    end
  else ret current.

(** Lines 204-216. *)
Definition parseDistortionShift (lensJson : json) (current : option DistortionShift) : M (option DistortionShift) :=
  if contains lensJson "distortionShift"
  then
    x <- assignField checkTypeAndSetField_double (lensJson @ "distortionShift") "x" None "double" ;;
    y <- assignField checkTypeAndSetField_double (lensJson @ "distortionShift") "y" None "double" ;;
    match x, y with
    | Some xv, Some yv => ret (Some {| distortionShift_x := xv; distortionShift_y := yv |})
    | _, _ => ret current
    end
  else ret current.

(** Lines 220-232. *)
Definition parseEntrancePupilOffset (lensJson : json) (current : option EntrancePupilOffset) : M (option EntrancePupilOffset) :=
  if contains lensJson "entrancePupilOffset"
  then
    numerator <- assignField checkTypeAndSetField_int64 (lensJson @ "entrancePupilOffset") "num" None "int64" ;;
    denominator <- assignField checkTypeAndSetField_int64 (lensJson @ "entrancePupilOffset") "denom" None "int64" ;;
    match numerator, denominator with
    | Some nv, Some dv => ret (Some {| numerator := nv; denominator := dv |})
    | _, _ => ret current
    end
  else ret current.

(** Lines 234-248. *)
Definition parseExposureFalloff (lensJson : json) (current : option ExposureFalloff) : M (option ExposureFalloff) :=
  if contains lensJson "exposureFalloff"
  then
    a1 <- assignField checkTypeAndSetField_double (lensJson @ "exposureFalloff") "a1" None "double" ;;
    a2 <- assignField checkTypeAndSetField_double (lensJson @ "exposureFalloff") "a2" None "double" ;;
    a3 <- assignField checkTypeAndSetField_double (lensJson @ "exposureFalloff") "a3" None "double" ;;
    match a1 with
    | Some value => ret (Some {| a1 := value; a2 := a2; a3 := a3 |})
    | None => ret current
    end
  else ret current.

(** Lines 254-266. *)
Definition parsePerspectiveShift (lensJson : json) (current : option PerspectiveShift) : M (option PerspectiveShift) :=
  if contains lensJson "perspectiveShift"
  then
    x <- assignField checkTypeAndSetField_double (lensJson @ "perspectiveShift") "x" None "double" ;;
    y <- assignField checkTypeAndSetField_double (lensJson @ "perspectiveShift") "y" None "double" ;;
    match x, y with
    | Some xv, Some yv => ret (Some {| perspectiveShift_x := xv; perspectiveShift_y := yv |})
    | _, _ => ret current
    end
  else ret current.

(** Lines 271-285. *)
Definition parseUndistortion (lensJson : json) (current : option Undistortion) : M (option Undistortion) :=
  if contains lensJson "undistortion"
  then
    radial <- assignField checkTypeAndSetField_vector_double (lensJson @ "undistortion") "radial" None "double" ;;
    tangential <- assignField checkTypeAndSetField_vector_double (lensJson @ "undistortion") "tangential" None "double" ;;
    match radial with
    | Some value =>
        ret (Some {| undistortion_radial := value; undistortion_tangential := tangential |})
    | None => ret current
    end
  else ret current.

(** Lines 162-170: the static fields, written into [lens]. *)
Definition parseStaticFields (json : json) (lens : t) : M t :=
  if contains json "static" && contains (json @ "static") "lens"
  then
    let lensJson := json @ "static" @ "lens" in
    firmwareVersion' <- assignField checkTypeAndSetField_string lensJson "firmwareVersion" (firmwareVersion lens) "string" ;;
    make' <- assignField checkTypeAndSetField_string lensJson "make" (make lens) "string" ;;
    model' <- assignField checkTypeAndSetField_string lensJson "model" (model lens) "string" ;;
    nominalFocalLength' <- assignField checkTypeAndSetField_double lensJson "nominalFocalLength" (nominalFocalLength lens) "double" ;;
    serialNumber' <- assignField checkTypeAndSetField_string lensJson "serialNumber" (serialNumber lens) "string" ;;
    ret {|
      firmwareVersion := firmwareVersion'; make := make'; model := model';
      nominalFocalLength := nominalFocalLength'; serialNumber := serialNumber';
      custom := custom lens; distortion := distortion lens;
      distortionOverscan := distortionOverscan lens;
      distortionScale := distortionScale lens;
      distortionShift := distortionShift lens; encoders := encoders lens;
      entrancePupilOffset := entrancePupilOffset lens;
      exposureFalloff := exposureFalloff lens; fStop := fStop lens;
      focalLength := focalLength lens; focusDistance := focusDistance lens;
      perspectiveShift := perspectiveShift lens; rawEncoders := rawEncoders lens;
      tStop := tStop lens; undistortion := undistortion lens
    |}
  else ret lens.

(** Lines 173-286: the standard fields, written into [lens]. *)
Definition parseStandardFields (json : json) (lens : t) : M t :=
  if contains json "lens"
  then
    let lensJson := json @ "lens" in
    custom' <- parseCustom lensJson (custom lens) ;;
    distortion' <- parseDistortion lensJson (distortion lens) ;;
    distortionOverscan' <- assignField checkTypeAndSetField_double lensJson "distortionOverscan" (distortionOverscan lens) "double" ;;
    distortionScale' <- assignField checkTypeAndSetField_double lensJson "distortionScale" (distortionScale lens) "double" ;;
    distortionShift' <- parseDistortionShift lensJson (distortionShift lens) ;;
    encoders' <- assignField checkTypeAndSetField_Encoders lensJson "encoders" (encoders lens) "double" ;;
    entrancePupilOffset' <- parseEntrancePupilOffset lensJson (entrancePupilOffset lens) ;;
    exposureFalloff' <- parseExposureFalloff lensJson (exposureFalloff lens) ;;
    fStop' <- assignField checkTypeAndSetField_uint32 lensJson "fStop" (fStop lens) "uint32" ;;
    focalLength' <- assignField checkTypeAndSetField_double lensJson "focalLength" (focalLength lens) "double" ;;
    focusDistance' <- assignField checkTypeAndSetField_uint32 lensJson "focusDistance" (focusDistance lens) "uint32" ;;
    perspectiveShift' <- parsePerspectiveShift lensJson (perspectiveShift lens) ;;
    rawEncoders' <- assignField checkTypeAndSetField_RawEncoders lensJson "rawEncoders" (rawEncoders lens) "double" ;;
    tStop' <- assignField checkTypeAndSetField_uint32 lensJson "tStop" (tStop lens) "uint32" ;;
    undistortion' <- parseUndistortion lensJson (undistortion lens) ;;
    ret {|
      firmwareVersion := firmwareVersion lens; make := make lens; model := model lens;
      nominalFocalLength := nominalFocalLength lens; serialNumber := serialNumber lens;
      custom := custom'; distortion := distortion';
      distortionOverscan := distortionOverscan';
      distortionScale := distortionScale';
      distortionShift := distortionShift'; encoders := encoders';
      entrancePupilOffset := entrancePupilOffset';
      exposureFalloff := exposureFalloff'; fStop := fStop';
      focalLength := focalLength'; focusDistance := focusDistance';
      perspectiveShift := perspectiveShift'; rawEncoders := rawEncoders';
      tStop := tStop'; undistortion := undistortion'
    |}
  else ret lens.

Definition parse (json : json) : M (option t) :=
  if negb (contains json "lens")
     && (negb (contains json "static") || negb (contains (json @ "static") "lens"))
  then ret None
  else
    lens <- parseStaticFields json empty ;;
    lens <- parseStandardFields json lens ;;
    ret (Some lens).

End Decoder.
End Lens.

Module Protocol.

Record t : Type := {
  name : string;
  version : string
}.

(** [proJson["name"]] is not guarded by [contains]: where [proJson] has no
    member "name" the call does not return (the library throws or fails an
    assertion), which is the outer [None]. *)
Definition parse (json : json) (errors : Errors) : option (option t * Errors) :=
  if negb (contains json "protocol")
  then Some (None, errors)
  else
    let proJson := json @ "protocol" in
    match find proJson "name" with
    | None => None
    | Some nameJson =>
        Some (match checkTypeAndSetField_string nameJson with
              | None =>
                  emplace_back "field: protocol isn't of type: string" ;; ret None
              | Some name =>
                  versionStr <- assignRegexField proJson "version" None version_pattern ;;
                  match versionStr with
                  | None => ret None
                  | Some value => ret (Some {| name := name; version := value |})
                  end
              end errors)
    end.

End Protocol.

Module RelatedSampleIds.

Record t : Type := { samples : list string }.

(** The loop over [rsJson.items()], [samples] being [rs.samples]. *)
Fixpoint loop (items : list json) (samples : list string) : M (list string) :=
  match items with
  | [] => ret samples
  | item :: rest =>
      match checkTypeAndSetField_string item with
      | None =>
          emplace_back "field: relatedSampleIds/element isn't of type: string" ;;
          loop rest samples
      | Some str =>
          if negb (Regex.regex_match str uuid_pattern)
          then emplace_back "field: relatedSampleIds/element doesn't match required pattern" ;;
               loop rest samples
          else loop rest (samples ++ [str])
      end
  end.

Definition parse (json : json) : M (option t) :=
  if negb (contains json "relatedSampleIds")
  then ret None
  else match json @ "relatedSampleIds" with
       | JArray items =>
           samples <- loop items [] ;;
           ret (Some {| samples := samples |})
       | _ =>
           emplace_back "field: relatedSampleIds isn't of type: array" ;; ret None
       end.

End RelatedSampleIds.

Module SampleId.

Record t : Type := { id : string }.

Definition parse (json : json) : M (option t) :=
  if negb (contains json "sampleId")
  then ret None
  else
    str <- assignRegexField json "sampleId" None uuid_pattern ;;
    match str with
    | None => ret None
    | Some value => ret (Some {| id := value |})
    end.

End SampleId.

Module StreamId.

Record t : Type := { id : string }.

Definition parse (json : json) : M (option t) :=
  if negb (contains json "streamId")
  then ret None
  else
    str <- assignRegexField json "streamId" None uuid_pattern ;;
    match str with
    | None => ret None
    | Some value => ret (Some {| id := value |})
    end.

End StreamId.

Module Timing.
Section Decoder.
Context {P : PrimitiveTypes}.

Inductive Mode : Type := EXTERNAL | INTERNAL.

Inductive SourceType : Type := GEN_LOCK | VIDEO_IN | PTP | NTP.

Record Offsets : Type := {
  translation : option double;
  rotation : option double;
  lensEncoders : option double
}.

Record Ptp : Type := {
  domain : option Z;
  offset : option double;
  master : option string
}.

Record Synchronization : Type := {
  frequency : Rational;
  locked : bool;
  source : SourceType;
  offsets : option Offsets;
  present : option bool;
  ptp : option Ptp
}.

Record t : Type := {
  frameRate : option Rational;
  mode : option Mode;
  recordedTimestamp : option Timestamp;
  sampleTimestamp : option Timestamp;
  sequenceNumber : option Z;
  synchronization : option Synchronization;
  timecode : option Timecode
}.

(** [str == "literal"] on a [std::optional<std::string>]. *)
Definition optional_eqb (str : option string) (literal : string) : bool :=
  match str with
  | Some s => String.eqb s literal
  | None => false
  end.

(** A string literal used as an operand of [||]: the array decays to a
    pointer, which is not null. *)
Definition literal_as_bool (literal : string) : bool := true.

(** Lines 418-428. *)
Definition parseMode (timingJson : json) : M (option Mode) :=
  str <- assignField checkTypeAndSetField_string timingJson "mode" None "string" ;;
  if has_value str && (optional_eqb str "external" || literal_as_bool "internal")
  then ret (Some (if optional_eqb str "external" then EXTERNAL else INTERNAL))
  else emplace_back "field: timing/mode has an invalid string value." ;;
       ret None.

(** Lines 514-526. *)
Definition parseOffsets (json : json) : M (option Offsets) :=
  if contains json "offsets"
  then
    translation <- assignField checkTypeAndSetField_double (json @ "offsets") "translation" None "double" ;;
    rotation <- assignField checkTypeAndSetField_double (json @ "offsets") "rotation" None "double" ;;
    lensEncoders <- assignField checkTypeAndSetField_double (json @ "offsets") "lensEncoders" None "double" ;;
    if negb (has_value translation) && negb (has_value rotation) && negb (has_value lensEncoders)
    then ret None
    else ret (Some {| translation := translation; rotation := rotation;
                      lensEncoders := lensEncoders |})
  else ret None.

(** Lines 530-542. *)
Definition parsePtp (json : json) : M (option Ptp) :=
  if contains json "ptp"
  then
    domain <- assignField checkTypeAndSetField_uint16 (json @ "ptp") "domain" None "uint16" ;;
    offset <- assignField checkTypeAndSetField_double (json @ "ptp") "offset" None "double" ;;
    master <- assignRegexField (json @ "ptp") "master" None mac_pattern ;;
    if negb (has_value domain) && negb (has_value offset) && negb (has_value master)
    then ret None
    else ret (Some {| domain := domain; offset := offset; master := master |})
  else ret None.

(** Lines 513-544: the fields that are not required, once the required
    ones are set. *)
Definition parseNonRequired (json : json) (frequency : Rational) (locked : bool)
    (source : SourceType) : M (option Synchronization) :=
  offsets <- parseOffsets json ;;
  present <- assignField checkTypeAndSetField_bool json "present" None "bool" ;;
  ptp <- parsePtp json ;;
  ret (Some {| frequency := frequency; locked := locked; source := source;
               offsets := offsets; present := present; ptp := ptp |}).

Definition parseSynchronization (json : json) : M (option Synchronization) :=
  let hasRequired :=
    contains json "frequency" && contains json "locked" && contains json "source" in
  if negb hasRequired
  then emplace_back "field: timing/synchronization is missing required fields" ;;
       ret None
  else
    freq <- call (Rational_parse (json @ "frequency")) ;;
    match freq with
    | None =>
        emplace_back "field: timing/synchronization/frequency is missing required fields" ;;
        ret None
    | Some frequency =>
        match checkTypeAndSetField_bool (json @ "locked") with
        | None =>
            emplace_back "field: timing/synchronization/lock isn't of type: bool" ;;
            ret None
        | Some locked =>
            match checkTypeAndSetField_string (json @ "source") with
            | None =>
                emplace_back "field: timing/synchronization/source isn't of type: string" ;;
                ret None
            | Some str =>
                if String.eqb str "genlock" then parseNonRequired json frequency locked GEN_LOCK
                else if String.eqb str "videoIn" then parseNonRequired json frequency locked VIDEO_IN
                else if String.eqb str "ptp" then parseNonRequired json frequency locked PTP
                else if String.eqb str "ntp" then parseNonRequired json frequency locked NTP
                else emplace_back "field: timing/synchronization/source isn't a valid enumeration" ;;
                     ret None
            end
        end
    end.

Definition parse (json : json) : M (option t) :=
  if negb (contains json "timing")
  then ret None
  else if negb (is_object (json @ "timing"))
  then emplace_back "field: timing isn't of type: object" ;; ret None
  else
    let timingJson := json @ "timing" in
    frameRate <-
      (if contains timingJson "frameRate"
       then call (Rational_parse (timingJson @ "frameRate"))
       else ret None) ;;
    mode <- parseMode timingJson ;;
    recordedTimestamp <-
      (if contains timingJson "recordedTimestamp"
       then call (Timestamp_parse (timingJson @ "recordedTimestamp"))
       else ret None) ;;
    sampleTimestamp <-
      (if contains timingJson "sampleTimestamp"
       then call (Timestamp_parse (timingJson @ "sampleTimestamp"))
       else ret None) ;;
    sequenceNumber <- assignField checkTypeAndSetField_uint16 timingJson "sequenceNumber" None "uint16" ;;
    synchronization <-
      (if contains timingJson "synchronization"
       then parseSynchronization (timingJson @ "synchronization")
       else ret None) ;;
    timecode <-
      (if contains timingJson "timecode"
       then call (Timecode_parse (timingJson @ "timecode"))
       else ret None) ;;
    ret (Some {|
      frameRate := frameRate;
      mode := mode;
      recordedTimestamp := recordedTimestamp;
      sampleTimestamp := sampleTimestamp;
      sequenceNumber := sequenceNumber;
      synchronization := synchronization;
      timecode := timecode
    |}).

End Decoder.
End Timing.

Module Tracker.

Record t : Type := {
  firmwareVersion : option string;
  make : option string;
  model : option string;
  serialNumber : option string;
  notes : option string;
  recording : option bool;
  slate : option string;
  status : option string
}.

(** [Tracker tkr{}] *)
Definition empty : t := {|
  firmwareVersion := None; make := None; model := None; serialNumber := None;
  notes := None; recording := None; slate := None; status := None
|}.

(** Lines 557-564: the static fields, written into [tkr]. *)
Definition parseStaticFields (json : json) (tkr : t) : M t :=
  if contains json "static" && contains (json @ "static") "tracker"
  then
    let tkrJson := json @ "static" @ "tracker" in
    firmwareVersion' <- assignField checkTypeAndSetField_string tkrJson "firmwareVersion" (firmwareVersion tkr) "string" ;;
    make' <- assignField checkTypeAndSetField_string tkrJson "make" (make tkr) "string" ;;
    model' <- assignField checkTypeAndSetField_string tkrJson "model" (model tkr) "string" ;;
    serialNumber' <- assignField checkTypeAndSetField_string tkrJson "serialNumber" (serialNumber tkr) "string" ;;
    ret {| firmwareVersion := firmwareVersion'; make := make'; model := model';
           serialNumber := serialNumber';
           notes := notes tkr; recording := recording tkr; slate := slate tkr;
           status := status tkr |}
  else ret tkr.

(** Lines 567-574: the standard fields, written into [tkr]. *)
Definition parseStandardFields (json : json) (tkr : t) : M t :=
  if contains json "tracker"
  then
    let tkrJson := json @ "tracker" in
    notes' <- assignField checkTypeAndSetField_string tkrJson "notes" (notes tkr) "string" ;;
    recording' <- assignField checkTypeAndSetField_bool tkrJson "recording" (recording tkr) "boolean" ;;
    slate' <- assignField checkTypeAndSetField_string tkrJson "slate" (slate tkr) "string" ;;
    status' <- assignField checkTypeAndSetField_string tkrJson "status" (status tkr) "string" ;;
    ret {| firmwareVersion := firmwareVersion tkr; make := make tkr; model := model tkr;
           serialNumber := serialNumber tkr;
           notes := notes'; recording := recording'; slate := slate';
           status := status' |}
  else ret tkr.

Definition parse (json : json) : M (option t) :=
  if negb (contains json "tracker")
     && (negb (contains json "static") || negb (contains (json @ "static") "tracker"))
  then ret None
  else
    tkr <- parseStaticFields json empty ;;
    tkr <- parseStandardFields json tkr ;;
    ret (Some tkr).

End Tracker.

Module Transforms.
Section Decoder.
Context {P : PrimitiveTypes}.

Record t : Type := { transforms : list Transform }.

(** The loop over [tfsJson.items()], [transforms] being [tfs.transforms]. *)
Fixpoint loop (items : list json) (transforms : list Transform) : M (list Transform) :=
  match items with
  | [] => ret transforms
  | transformJson :: rest =>
      tf <- call (Transform_parse transformJson) ;;
      match tf with
      | Some value => loop rest (transforms ++ [value])
      | None => loop rest transforms
      end
  end.

Definition parse (json : json) : M (option t) :=
  if negb (contains json "transforms")
  then ret None
  else match json @ "transforms" with
       | JArray items =>
           transforms <- loop items [] ;;
           ret (Some {| transforms := transforms |})
       | _ => emplace_back "Transforms is not an array." ;; ret None
       end.

End Decoder.
End Transforms.

(** ** Documents and validity, in the words of the specification *)

(** The member [b] of the member [a] of the document. *)
Definition find2 (j : json) (a b : string) : option json :=
  match find j a with
  | Some v => find v b
  | None => None
  end.

Definition find3 (j : json) (a b c : string) : option json :=
  match find2 j a b with
  | Some v => find v c
  | None => None
  end.

Definition is_number (j : json) : bool :=
  match j with JInt _ | JFloat _ => true | _ => false end.

(** A present and valid sequence of doubles: an array of numbers. *)
Definition valid_double_array (o : option json) : bool :=
  match o with
  | Some (JArray items) => forallb is_number items
  | _ => false
  end.

(** A present and valid double: a number. *)
Definition valid_double (o : option json) : bool :=
  match o with
  | Some j => is_number j
  | None => false
  end.

(** A present and valid uint16: an integer within 0 .. 65535. *)
Definition valid_uint16 (o : option json) : bool :=
  match o with
  | Some (JInt z) => (0 <=? z) && (z <=? 65535)
  | _ => false
  end.

(** A present string that matches [pattern]. *)
Definition valid_pattern_string (pattern : Regex.regex) (o : option json) : bool :=
  match o with
  | Some (JString s) => Regex.regex_match s pattern
  | _ => false
  end.

(** A non-negative integer in decimal: a non-empty run of digits. *)
Fixpoint all_digits (s : string) : bool :=
  match s with
  | EmptyString => true
  | String c rest => Regex.in_range "0" "9" c && all_digits rest
  end.

Definition decimal (s : string) : bool :=
  match s with
  | EmptyString => false
  | String _ _ => all_digits s
  end.

(** Three dot-separated parts. *)
Definition dotted (major minor patch : string) : string :=
  (major ++ "." ++ minor ++ "." ++ patch)%string.

(** The document with the member [key] of its top-level object replaced by
    its image under [f]. *)
Definition update_member (key : string) (f : json -> json) (j : json) : json :=
  match j with
  | JObject fields =>
      JObject (map (fun kv => if String.eqb key (fst kv) then (fst kv, f (snd kv)) else kv)
                 fields)
  | _ => j
  end.

(** The document without [timing.synchronization]. *)
Definition without_synchronization (doc : json) : json :=
  update_member "timing" (erase "synchronization") doc.

(** The elements of [relatedSampleIds] that are strings matching the
    urn:uuid pattern, in document order. *)
Definition valid_sample (item : json) : bool :=
  valid_pattern_string uuid_pattern (Some item).

Fixpoint valid_samples (items : list json) : list string :=
  match items with
  | [] => []
  | JString s :: rest =>
      if Regex.regex_match s uuid_pattern then s :: valid_samples rest else valid_samples rest
  | _ :: rest => valid_samples rest
  end.

(** The error reported for an invalid element of [relatedSampleIds]. *)
Definition element_error (item : json) : string :=
  match item with
  | JString _ => "field: relatedSampleIds/element doesn't match required pattern"
  | _ => "field: relatedSampleIds/element isn't of type: string"
  end.

(** The name of a synchronization source in a document. *)
Definition source_name (source : Timing.SourceType) : string :=
  match source with
  | Timing.GEN_LOCK => "genlock"
  | Timing.VIDEO_IN => "videoIn"
  | Timing.PTP => "ptp"
  | Timing.NTP => "ntp"
  end.

(** The string, boolean or number held by the member [key] of a section
    that may be missing; [None] where the section or the member is missing
    or the member is of another kind.  A number is read as a double: a
    floating-point member as it is, an integer member converted to the
    nearest double. *)
Definition string_at (section : option json) (key : string) : option string :=
  match section with
  | Some j => match find j key with Some (JString s) => Some s | _ => None end
  | None => None
  end.

Definition bool_at (section : option json) (key : string) : option bool :=
  match section with
  | Some j => match find j key with Some (JBool b) => Some b | _ => None end
  | None => None
  end.

Definition number_at (section : option json) (key : string) : option double :=
  match section with
  | Some j =>
      match find j key with
      | Some (JInt z) => Some (double_of_integer z)
      | Some (JFloat d) => Some d
      | _ => None
      end
  | None => None
  end.

Definition int64_at (section : option json) (key : string) : option Z :=
  match section with
  | Some j =>
      match find j key with
      | Some (JInt z) =>
          if (-9223372036854775808 <=? z) && (z <=? 9223372036854775807)
          then Some z else None
      | _ => None
      end
  | None => None
  end.

(** The numbers of an array of numbers, in order, as doubles. *)
Definition numbers (items : list json) : list double :=
  flat_map (fun item => match item with
                        | JInt z => [double_of_integer z]
                        | JFloat d => [d]
                        | _ => []
                        end) items.

Definition uint16_at (section : option json) (key : string) : option Z :=
  match section with
  | Some j =>
      match find j key with
      | Some (JInt z) => if (0 <=? z) && (z <=? 65535) then Some z else None
      | _ => None
      end
  | None => None
  end.

Definition is_uint16 (j : json) : bool :=
  match j with
  | JInt z => (0 <=? z) && (z <=? 65535)
  | _ => false
  end.

(** What a primitive parser makes of the member [key] of [section]: its
    value and its errors on the member, nothing where the member is missing. *)
Definition parsed_at {T} (parse : json -> option T * list string) (section : json)
    (key : string) : option T * list string :=
  match find section key with
  | Some j => parse j
  | None => (None, [])
  end.

(** The member [key] of the section is present and [is_kind] rejects it. *)
Definition mistyped (is_kind : json -> bool) (section : option json) (key : string) : bool :=
  match section with
  | Some j => match find j key with Some v => negb (is_kind v) | None => false end
  | None => false
  end.

Definition is_string (j : json) : bool :=
  match j with JString _ => true | _ => false end.

Definition is_boolean (j : json) : bool :=
  match j with JBool _ => true | _ => false end.

(** The error reported for a member that is present and of the wrong kind. *)
Definition type_error (is_kind : json -> bool) (section : option json) (key typeStr : string)
    : list string :=
  if mistyped is_kind section key
  then [("field: " ++ key ++ " isn't of type: " ++ typeStr)%string]
  else [].

(** The number of [true] among [flags]. *)
Definition count_true (flags : list bool) : nat :=
  List.length (filter (fun b => b) flags).

(** The document without [lens.custom]. *)
Definition without_custom (doc : json) : json :=
  update_member "lens" (erase "custom") doc.

(** ** An instance of the primitive types

    The properties below hold for every instance of [PrimitiveTypes].  To
    run the decoders on concrete documents, [Sample.types] keeps every
    primitive value as the JSON node it is read from, a primitive parser
    accepting the objects and rejecting any other node with one message. *)
Module Sample.

Definition parse_object (what : string) (j : json) : option json * list string :=
  if is_object j then (Some j, [])
  else (None, [("field: " ++ what ++ " isn't of type: object")%string]).

Definition check_object (j : json) : option json :=
  if is_object j then Some j else None.

Definition types : PrimitiveTypes := {|
  Dimensions := json;
  Rational := json;
  Timestamp := json;
  Timecode := json;
  Transform := json;
  Encoders := json;
  RawEncoders := json;
  Dimensions_parse := parse_object "dimensions";
  Rational_parse := parse_object "rational";
  Timestamp_parse := parse_object "timestamp";
  Timecode_parse := parse_object "timecode";
  Transform_parse := parse_object "transform";
  checkTypeAndSetField_Encoders := check_object;
  checkTypeAndSetField_RawEncoders := check_object
|}.

(** Documents the decoders are run on below. *)

(** {"static": {"duration": {"num": 1, "denom": 2}}} *)
Definition duration_doc : json :=
  JObject [("static", JObject [("duration", JObject [("num", JInt 1); ("denom", JInt 2)])])].

(** {"timing": {"mode": "bogus"}} *)
Definition bogus_mode_doc : json :=
  JObject [("timing", JObject [("mode", JString "bogus")])].

(** {"timing": {}} *)
Definition no_mode_doc : json := JObject [("timing", JObject [])].

(** {"static": {"camera": {"label": "A", "shutterAngle": 0}}} *)
Definition zero_shutter_doc : json :=
  JObject [("static", JObject [("camera",
    JObject [("label", JString "A"); ("shutterAngle", JInt 0)])])].

(** {"static": {"camera": {"label": "A", "shutterAngle": 400000}}} *)
Definition wide_shutter_doc : json :=
  JObject [("static", JObject [("camera",
    JObject [("label", JString "A"); ("shutterAngle", JInt 400000)])])].

(** {"protocol": {"name": "OpenTrackIO", "version": "1a0b0"}} *)
Definition undotted_version_doc : json :=
  JObject [("protocol",
    JObject [("name", JString "OpenTrackIO"); ("version", JString "1a0b0")])].

(** {"protocol": {"name": "OpenTrackIO", "version": "1.0"}} *)
Definition short_version_doc : json :=
  JObject [("protocol",
    JObject [("name", JString "OpenTrackIO"); ("version", JString "1.0")])].

(** {"protocol": {"name": "OpenTrackIO"}} *)
Definition no_version_doc : json :=
  JObject [("protocol", JObject [("name", JString "OpenTrackIO")])].

(** {"relatedSampleIds": ["urn:uuid:<valid>", "bad-id", 7, "urn:uuid:<valid2>"]} *)
Definition related_items : list json :=
  [JString "urn:uuid:12345678-1234-1234-1234-123456789abc";
   JString "bad-id";
   JInt 7;
   JString "urn:uuid:00000000-0000-0000-0000-000000000001"].

Definition related_doc : json := JObject [("relatedSampleIds", JArray related_items)].

(** {"lens": {"distortion": {"radial": [1, 2], "tangential": "bad"},
              "undistortion": {"tangential": [1]}}} *)
Definition groups_doc : json :=
  JObject [("lens", JObject [
    ("distortion", JObject [("radial", JArray [JInt 1; JInt 2]);
                            ("tangential", JString "bad")]);
    ("undistortion", JObject [("tangential", JArray [JInt 1])])])].

(** {"frequency": {}, "locked": true, "source": "genlock", "offsets": {},
     "ptp": {"domain": 70000, "master": "00:1A:2B:3C:4D:5E"}} *)
Definition groups_sync : json :=
  JObject [("frequency", JObject []); ("locked", JBool true);
           ("source", JString "genlock"); ("offsets", JObject []);
           ("ptp", JObject [("domain", JInt 70000);
                            ("master", JString "00:1A:2B:3C:4D:5E")])].

(** {"frequency": {}, "source": "genlock"}: no locked. *)
Definition unlocked_sync : json :=
  JObject [("frequency", JObject []); ("source", JString "genlock")].

Definition unlocked_timing : json :=
  JObject [("mode", JString "external"); ("frameRate", JInt 24);
           ("sequenceNumber", JInt 7); ("synchronization", unlocked_sync);
           ("timecode", JObject [])].

(** {"timing": {"mode": "external", "frameRate": 24, "sequenceNumber": 7,
                "synchronization": {"frequency": {}, "source": "genlock"},
                "timecode": {}}} *)
Definition unlocked_doc : json := JObject [("timing", unlocked_timing)].

(** {"lens": {"fStop": "wide", "focalLength": true, "distortion": 3},
     "static": {"lens": {"make": 1, "model": 2},
                "tracker": {"make": false}}} *)
Definition invalid_fields_doc : json :=
  JObject [("lens", JObject [("fStop", JString "wide"); ("focalLength", JBool true);
                             ("distortion", JInt 3)]);
           ("static", JObject [("lens", JObject [("make", JInt 1); ("model", JInt 2)]);
                               ("tracker", JObject [("make", JBool false)])])].

(** {"unrelated": 1, "static": {}} *)
Definition unrelated_doc : json :=
  JObject [("unrelated", JInt 1); ("static", JObject [])].

(** {"globalStage": {"E": 1, "N": 2, "U": 3, "lat0": 9007199254740993,
                     "lon0": 5, "h0": 6}}: lat0 is 2^53 + 1, which no double holds. *)
Definition stage : json :=
  JObject [("E", JInt 1); ("N", JInt 2); ("U", JInt 3);
           ("lat0", JInt 9007199254740993); ("lon0", JInt 5); ("h0", JInt 6)].

Definition stage_doc : json := JObject [("globalStage", stage)].

(** {"globalStage": {"E": 1, "N": "north", "U": true}} *)
Definition broken_stage : json :=
  JObject [("E", JInt 1); ("N", JString "north"); ("U", JBool true)].

Definition broken_stage_doc : json := JObject [("globalStage", broken_stage)].

(** {"static": {"camera": 1, "duration": "long"}, "globalStage": [],
     "timing": 25, "relatedSampleIds": {}, "transforms": "none"} *)
Definition wrong_kinds_doc : json :=
  JObject [("static", JObject [("camera", JInt 1); ("duration", JString "long")]);
           ("globalStage", JArray []); ("timing", JInt 25);
           ("relatedSampleIds", JObject []); ("transforms", JString "none")].

(** {"lens": [1, 2], "tracker": "on"} *)
Definition flat_sections_doc : json :=
  JObject [("lens", JArray [JInt 1; JInt 2]); ("tracker", JString "on")].

(** {"sampleId": "urn:uuid:12345678-1234-1234-1234-123456789abc",
     "streamId": "not-a-uuid"} *)
Definition ids_doc : json :=
  JObject [("sampleId", JString "urn:uuid:12345678-1234-1234-1234-123456789abc");
           ("streamId", JString "not-a-uuid")].

(** {"transforms": [{}, 3, {"id": "crane"}]} *)
Definition transform_items : list json :=
  [JObject []; JInt 3; JObject [("id", JString "crane")]].

Definition transforms_doc : json := JObject [("transforms", JArray transform_items)].

(** {"static": {"duration": {"num": "one", "denom": 2}}} *)
Definition broken_duration : json :=
  JObject [("num", JString "one"); ("denom", JInt 2)].

Definition broken_duration_doc : json :=
  JObject [("static", JObject [("duration", broken_duration)])].

(** {"protocol": {"name": "OpenTrackIO", "version": "1.0.12"}} *)
Definition protocol_section : json :=
  JObject [("name", JString "OpenTrackIO"); ("version", JString "1.0.12")].

Definition protocol_doc : json := JObject [("protocol", protocol_section)].

(** {"frequency": {}, "locked": false, "source": "wordclock"} *)
Definition wordclock_sync : json :=
  JObject [("frequency", JObject []); ("locked", JBool false);
           ("source", JString "wordclock")].

(** {"static": {"camera": {"fdlLink": "urn:uuid:12345678-1234-1234-1234-123456789abc",
                           "isoSpeed": "fast", "shutterAngle": 180000}}} *)
Definition camera_section : json :=
  JObject [("fdlLink", JString "urn:uuid:12345678-1234-1234-1234-123456789abc");
           ("isoSpeed", JString "fast"); ("shutterAngle", JInt 180000)].

Definition camera_doc : json :=
  JObject [("static", JObject [("camera", camera_section)])].

(** {"static": {"camera": {"isoSpeed": "fast", "shutterAngle": 400000}}} *)
Definition wide_camera_section : json :=
  JObject [("isoSpeed", JString "fast"); ("shutterAngle", JInt 400000)].

Definition wide_camera_doc : json :=
  JObject [("static", JObject [("camera", wide_camera_section)])].

(** {"static": {"tracker": {"make": "Acme", "model": 7}},
     "tracker": {"notes": "take 3", "recording": "yes", "status": "ok"}} *)
Definition tracker_doc : json :=
  JObject [("static", JObject [("tracker",
             JObject [("make", JString "Acme"); ("model", JInt 7)])]);
           ("tracker", JObject [("notes", JString "take 3");
                                ("recording", JString "yes");
                                ("status", JString "ok")])].

(** {"static": {"lens": {"make": "Acme", "nominalFocalLength": 35, "model": 7}},
     "lens": {"make": "ignored", "custom": "none",
              "distortionShift": {"x": 1},
              "perspectiveShift": {"x": 1, "y": 2},
              "entrancePupilOffset": {"num": 1, "denom": 2},
              "exposureFalloff": {"a2": 1}}} *)
Definition lens_section : json :=
  JObject [("make", JString "ignored"); ("custom", JString "none");
           ("distortionShift", JObject [("x", JInt 1)]);
           ("perspectiveShift", JObject [("x", JInt 1); ("y", JInt 2)]);
           ("entrancePupilOffset", JObject [("num", JInt 1); ("denom", JInt 2)]);
           ("exposureFalloff", JObject [("a2", JInt 1)])].

Definition lens_doc : json :=
  JObject [("static", JObject [("lens",
             JObject [("make", JString "Acme"); ("nominalFocalLength", JInt 35);
                      ("model", JInt 7)])]);
           ("lens", lens_section)].

(** {"timing": {"mode": "internal", "frameRate": {"num": 24, "denom": 1},
                "recordedTimestamp": 5, "sampleTimestamp": {"seconds": 1},
                "sequenceNumber": 7,
                "synchronization": {"frequency": {}, "source": "genlock"},
                "timecode": {"hours": 1}}} *)
Definition siblings_timing : json :=
  JObject [("mode", JString "internal");
           ("frameRate", JObject [("num", JInt 24); ("denom", JInt 1)]);
           ("recordedTimestamp", JInt 5);
           ("sampleTimestamp", JObject [("seconds", JInt 1)]);
           ("sequenceNumber", JInt 7);
           ("synchronization", unlocked_sync);
           ("timecode", JObject [("hours", JInt 1)])].

Definition siblings_doc : json := JObject [("timing", siblings_timing)].

End Sample.

(** ** Computations that only append to the error vector *)

(** [m] returns the same value whatever vector it is given, and leaves the
    vector with the same messages added at its end. *)
Definition appends {A} (m : M A) : Prop :=
  exists a d, forall errors, m errors = (a, errors ++ d).

Lemma appends_ret {A} (a : A) : appends (ret a).
Proof. exists a, []. intros errors. unfold ret. now rewrite app_nil_r. Qed.

Lemma appends_emplace_back (msg : string) : appends (emplace_back msg).
Proof. exists tt, [msg]. reflexivity. Qed.

Lemma appends_call {T} (p : option T * list string) : appends (call p).
Proof. exists (fst p), (snd p). reflexivity. Qed.

Lemma appends_bind {A B} (m : M A) (f : A -> M B) :
  appends m -> (forall a, appends (f a)) -> appends (bind m f).
Proof.
  intros (a & d & Hm) Hf. destruct (Hf a) as (b & d' & Hfa).
  exists b, (d ++ d'). intros errors. unfold bind.
  rewrite Hm, Hfa. now rewrite app_assoc.
Qed.

(** The value and the messages of a computation are those it produces from
    the empty vector. *)
Lemma appends_run {A} (m : M A) :
  appends m -> forall errors, m errors = (fst (m []), errors ++ snd (m [])).
Proof.
  intros (a & d & Hm) errors. rewrite (Hm []), (Hm errors). reflexivity.
Qed.

Lemma bind_run {A B} (m : M A) (f : A -> M B) (errors : Errors) :
  appends m -> bind m f errors = f (fst (m [])) (errors ++ snd (m [])).
Proof.
  intros Hm. unfold bind at 1. rewrite (appends_run Hm errors). reflexivity.
Qed.

Create HintDb appends.

Ltac solve_appends :=
  repeat first
    [ solve [ auto with appends ]
    | apply appends_ret
    | apply appends_emplace_back
    | apply appends_call
    | apply appends_bind; [ | intros ]
    | match goal with
      | |- appends (if ?c then _ else _) => destruct c
      | |- appends (match ?x with _ => _ end) => destruct x
      | |- appends (let (_, _) := ?x in _) => destruct x
      end
    | progress cbv zeta ].

Lemma appends_assignField {T} (check : json -> option T) j fieldStr field typeStr :
  appends (assignField check j fieldStr field typeStr).
Proof. unfold assignField. solve_appends. Qed.

Lemma appends_assignRegexField j fieldStr field pattern :
  appends (assignRegexField j fieldStr field pattern).
Proof. unfold assignRegexField. solve_appends. Qed.

#[global] Hint Resolve appends_ret appends_emplace_back appends_call
  appends_assignField appends_assignRegexField : appends.

(** ** Accessors *)

Lemma contains_find j key v : find j key = Some v -> contains j key = true.
Proof. unfold contains. now intros ->. Qed.

Lemma contains_find_None j key : find j key = None -> contains j key = false.
Proof. unfold contains. now intros ->. Qed.

Lemma at_key_find j key v : find j key = Some v -> j @ key = v.
Proof. unfold at_key. now intros ->. Qed.

(** The guard [!json.contains(a) || !json[a].contains(b)] tests that the
    document has no member [a.b]. *)
Lemma guard_find2 j a b :
  negb (contains j a) || negb (contains (j @ a) b)
  = match find2 j a b with Some _ => false | None => true end.
Proof.
  unfold find2, contains, at_key.
  destruct (find j a) as [v|]; cbn; [ | reflexivity ].
  destruct (find v b); reflexivity.
Qed.

Section Properties.
  Context {P : PrimitiveTypes}.

(** *** Absent sections *)

(** C8: each of the eleven decoders, given a document that lacks the
    decoder's anchor key or keys, returns absent and leaves the error vector
    as it received it. *)
Theorem absent_section_is_silent (doc : json) (errors : Errors) :
  (find2 doc "static" "camera" = None -> Camera.parse doc errors = (None, errors)) /\
  (find2 doc "static" "duration" = None -> Duration.parse doc errors = (None, errors)) /\
  (find doc "globalStage" = None -> GlobalStage.parse doc errors = (None, errors)) /\
  (find doc "lens" = None -> find2 doc "static" "lens" = None ->
   Lens.parse doc errors = (None, errors)) /\
  (find doc "protocol" = None -> Protocol.parse doc errors = Some (None, errors)) /\
  (find doc "relatedSampleIds" = None ->
   RelatedSampleIds.parse doc errors = (None, errors)) /\
  (find doc "sampleId" = None -> SampleId.parse doc errors = (None, errors)) /\
  (find doc "streamId" = None -> StreamId.parse doc errors = (None, errors)) /\
  (find doc "timing" = None -> Timing.parse doc errors = (None, errors)) /\
  (find doc "tracker" = None -> find2 doc "static" "tracker" = None ->
   Tracker.parse doc errors = (None, errors)) /\
  (find doc "transforms" = None -> Transforms.parse doc errors = (None, errors)).
Proof.
  repeat split.
  - intros H. unfold Camera.parse. now rewrite guard_find2, H.
  - intros H. unfold Duration.parse. now rewrite guard_find2, H.
  - intros H. unfold GlobalStage.parse. now rewrite (contains_find_None _ _ H).
  - intros H H'. unfold Lens.parse.
    now rewrite guard_find2, H', (contains_find_None _ _ H).
  - intros H. unfold Protocol.parse. now rewrite (contains_find_None _ _ H).
  - intros H. unfold RelatedSampleIds.parse. now rewrite (contains_find_None _ _ H).
  - intros H. unfold SampleId.parse. now rewrite (contains_find_None _ _ H).
  - intros H. unfold StreamId.parse. now rewrite (contains_find_None _ _ H).
  - intros H. unfold Timing.parse. now rewrite (contains_find_None _ _ H).
  - intros H H'. unfold Tracker.parse.
    now rewrite guard_find2, H', (contains_find_None _ _ H).
  - intros H. unfold Transforms.parse. now rewrite (contains_find_None _ _ H).
Qed.

(** *** Lens and Tracker are kept whenever their section is present *)

Lemma appends_Lens_parseStaticFields json lens : appends (Lens.parseStaticFields json lens).
Proof. unfold Lens.parseStaticFields. solve_appends. Qed.

Lemma appends_Lens_parseStandardFields json lens : appends (Lens.parseStandardFields json lens).
Proof.
  unfold Lens.parseStandardFields, Lens.parseCustom, Lens.parseDistortion,
    Lens.parseDistortionShift, Lens.parseEntrancePupilOffset, Lens.parseExposureFalloff,
    Lens.parsePerspectiveShift, Lens.parseUndistortion.
  solve_appends.
Qed.

Lemma appends_Tracker_parseStaticFields json tkr : appends (Tracker.parseStaticFields json tkr).
Proof. unfold Tracker.parseStaticFields. solve_appends. Qed.

Lemma appends_Tracker_parseStandardFields json tkr : appends (Tracker.parseStandardFields json tkr).
Proof. unfold Tracker.parseStandardFields. solve_appends. Qed.

Lemma Lens_guard doc :
  find doc "lens" <> None \/ find2 doc "static" "lens" <> None ->
  negb (contains doc "lens")
  && (negb (contains doc "static") || negb (contains (doc @ "static") "lens")) = false.
Proof.
  rewrite guard_find2. unfold contains.
  destruct (find doc "lens"), (find2 doc "static" "lens"); cbn; tauto.
Qed.

Lemma Tracker_guard doc :
  find doc "tracker" <> None \/ find2 doc "static" "tracker" <> None ->
  negb (contains doc "tracker")
  && (negb (contains doc "static") || negb (contains (doc @ "static") "tracker")) = false.
Proof.
  rewrite guard_find2. unfold contains.
  destruct (find doc "tracker"), (find2 doc "static" "tracker"); cbn; tauto.
Qed.

(** C10: when the document has the key lens or static.lens, [Lens::parse]
    returns a present entity, and when it has tracker or static.tracker,
    [Tracker::parse] does; the sub-fields that fail validation only add
    messages to the error vector. *)
Theorem present_section_is_kept (doc : json) (errors : Errors) :
  (find doc "lens" <> None \/ find2 doc "static" "lens" <> None ->
   exists lens appended, Lens.parse doc errors = (Some lens, errors ++ appended)) /\
  (find doc "tracker" <> None \/ find2 doc "static" "tracker" <> None ->
   exists tkr appended, Tracker.parse doc errors = (Some tkr, errors ++ appended)).
Proof.
  split; intros H.
  - unfold Lens.parse. rewrite (Lens_guard _ H).
    rewrite bind_run by apply appends_Lens_parseStaticFields.
    rewrite bind_run by apply appends_Lens_parseStandardFields.
    unfold ret. rewrite <- app_assoc. eauto.
  - unfold Tracker.parse. rewrite (Tracker_guard _ H).
    rewrite bind_run by apply appends_Tracker_parseStaticFields.
    rewrite bind_run by apply appends_Tracker_parseStandardFields.
    unfold ret. rewrite <- app_assoc. eauto.
Qed.

(** *** RelatedSampleIds *)

Lemma RelatedSampleIds_loop items : forall samples errors,
  RelatedSampleIds.loop items samples errors
  = (samples ++ valid_samples items,
     errors ++ map element_error (filter (fun item => negb (valid_sample item)) items)).
Proof.
  induction items as [| item rest IH]; intros samples errors; cbn [RelatedSampleIds.loop].
  - cbn. unfold ret. now rewrite !app_nil_r.
  - destruct item; cbn [checkTypeAndSetField_string];
      try (unfold bind, emplace_back; rewrite IH; cbn; now rewrite <- app_assoc).
    unfold valid_sample. cbn [valid_pattern_string valid_samples filter].
    destruct (Regex.regex_match s uuid_pattern); cbn [negb].
    + rewrite IH. now rewrite <- app_assoc.
    + unfold bind, emplace_back. rewrite IH. cbn. now rewrite <- app_assoc.
Qed.

Lemma valid_samples_filter items :
  map JString (valid_samples items) = filter valid_sample items.
Proof.
  induction items as [| item rest IH]; [ reflexivity | ].
  destruct item; cbn [valid_samples filter valid_sample valid_pattern_string]; auto.
  destruct (Regex.regex_match s uuid_pattern); cbn [map]; now rewrite ?IH.
Qed.

(** C7: when relatedSampleIds holds an array, [RelatedSampleIds::parse]
    returns a present sequence made of exactly the elements that are strings
    matching the urn:uuid pattern, in document order, and appends one error
    for each other element. *)
Theorem RelatedSampleIds_keeps_valid_elements (doc : json) (items : list json)
    (errors : Errors) :
  find doc "relatedSampleIds" = Some (JArray items) ->
  exists samples,
    RelatedSampleIds.parse doc errors
    = (Some {| RelatedSampleIds.samples := samples |},
       errors ++ map element_error (filter (fun item => negb (valid_sample item)) items))
    /\ map JString samples = filter valid_sample items.
Proof.
  intros H. exists (valid_samples items). split; [ | apply valid_samples_filter ].
  unfold RelatedSampleIds.parse.
  rewrite (contains_find _ _ H), (at_key_find _ _ H). cbn [negb].
  unfold bind. rewrite RelatedSampleIds_loop. reflexivity.
Qed.

(** *** Nested optional groups *)

Lemma assignField_value {T} (check : json -> option T) j fieldStr typeStr errors :
  fst (assignField check j fieldStr None typeStr errors)
  = match find j fieldStr with Some v => check v | None => None end.
Proof.
  unfold assignField, contains, at_key.
  destruct (find j fieldStr) as [v|]; [ | reflexivity ].
  destruct (check v); reflexivity.
Qed.

Lemma assignRegexField_value j fieldStr pattern errors :
  has_value (fst (assignRegexField j fieldStr None pattern errors))
  = valid_pattern_string pattern (find j fieldStr).
Proof.
  unfold assignRegexField, contains, at_key, valid_pattern_string.
  destruct (find j fieldStr) as [v|]; [ | reflexivity ].
  destruct v; try reflexivity. cbn [checkTypeAndSetField_string].
  destruct (Regex.regex_match s pattern); reflexivity.
Qed.

Lemma populate_ok items : forall vec,
  fst (populate items vec) = forallb is_number items.
Proof.
  induction items as [| item rest IH]; intros vec; [ reflexivity | ].
  cbn [populate forallb]. destruct item; cbn; auto.
Qed.

Lemma vector_double_valid (o : option json) :
  has_value (match o with Some v => checkTypeAndSetField_vector_double v | None => None end)
  = valid_double_array o.
Proof.
  destruct o as [v|]; [ | reflexivity ].
  destruct v; try reflexivity.
  unfold checkTypeAndSetField_vector_double, iterateJsonArrayAndPopulateVector.
  cbn [is_array valid_double_array]. rewrite <- (populate_ok items []).
  destruct (populate items []) as [[] vec]; reflexivity.
Qed.

Lemma double_valid (o : option json) :
  has_value (match o with Some v => checkTypeAndSetField_double v | None => None end)
  = valid_double o.
Proof. destruct o as [v|]; [ | reflexivity ]. destruct v; reflexivity. Qed.

Lemma uint16_valid (o : option json) :
  has_value (match o with Some v => checkTypeAndSetField_uint16 v | None => None end)
  = valid_uint16 o.
Proof.
  destruct o as [v|]; [ | reflexivity ]. destruct v; try reflexivity.
  cbn. destruct ((0 <=? z) && (z <=? 65535)); reflexivity.
Qed.

(** A member read under a [contains] guard. *)
Lemma find_guarded j a b :
  (if contains j a then find (j @ a) b else None) = find2 j a b.
Proof. unfold contains, at_key, find2. destruct (find j a); reflexivity. Qed.

Lemma Lens_parseDistortion_value lensJson errors :
  has_value (fst (Lens.parseDistortion lensJson None errors))
  = valid_double_array (find2 lensJson "distortion" "radial").
Proof.
  rewrite <- vector_double_valid, <- find_guarded.
  unfold Lens.parseDistortion. destruct (contains lensJson "distortion"); [ | reflexivity ].
  rewrite !bind_run by solve_appends. rewrite assignField_value.
  destruct (find (lensJson @ "distortion") "radial") as [v|]; [ | reflexivity ].
  destruct (checkTypeAndSetField_vector_double v); reflexivity.
Qed.

Lemma Lens_parseUndistortion_value lensJson errors :
  has_value (fst (Lens.parseUndistortion lensJson None errors))
  = valid_double_array (find2 lensJson "undistortion" "radial").
Proof.
  rewrite <- vector_double_valid, <- find_guarded.
  unfold Lens.parseUndistortion. destruct (contains lensJson "undistortion"); [ | reflexivity ].
  rewrite !bind_run by solve_appends. rewrite assignField_value.
  destruct (find (lensJson @ "undistortion") "radial") as [v|]; [ | reflexivity ].
  destruct (checkTypeAndSetField_vector_double v); reflexivity.
Qed.

Lemma find3_member j a b c :
  find3 j a b c = match find j a with Some v => find2 v b c | None => None end.
Proof. unfold find3, find2. destruct (find j a); reflexivity. Qed.

Lemma Lens_parseStaticFields_groups json lens errors :
  let lens' := fst (Lens.parseStaticFields json lens errors) in
  Lens.distortion lens' = Lens.distortion lens
  /\ Lens.undistortion lens' = Lens.undistortion lens.
Proof.
  unfold Lens.parseStaticFields.
  destruct (contains json "static" && contains (json @ "static") "lens");
    [ | split; reflexivity ].
  cbv zeta. rewrite !bind_run by solve_appends. split; reflexivity.
Qed.

Lemma Lens_parseStandardFields_groups json lens errors :
  let lens' := fst (Lens.parseStandardFields json lens errors) in
  Lens.distortion lens'
  = (if contains json "lens"
     then fst (Lens.parseDistortion (json @ "lens") (Lens.distortion lens) [])
     else Lens.distortion lens)
  /\ Lens.undistortion lens'
     = (if contains json "lens"
        then fst (Lens.parseUndistortion (json @ "lens") (Lens.undistortion lens) [])
        else Lens.undistortion lens).
Proof.
  pose proof appends_Lens_parseStandardFields as Happ.
  unfold Lens.parseStandardFields, Lens.parseCustom, Lens.parseDistortionShift,
    Lens.parseEntrancePupilOffset, Lens.parseExposureFalloff,
    Lens.parsePerspectiveShift in *.
  destruct (contains json "lens"); [ | split; reflexivity ].
  cbv zeta.
  assert (Hd : appends (Lens.parseDistortion (json @ "lens") (Lens.distortion lens)))
    by (unfold Lens.parseDistortion; solve_appends).
  assert (Hu : appends (Lens.parseUndistortion (json @ "lens") (Lens.undistortion lens)))
    by (unfold Lens.parseUndistortion; solve_appends).
  rewrite !bind_run by solve_appends. split; reflexivity.
Qed.

Lemma Timing_parseOffsets_value json errors :
  has_value (fst (Timing.parseOffsets json errors))
  = valid_double (find2 json "offsets" "translation")
    || valid_double (find2 json "offsets" "rotation")
    || valid_double (find2 json "offsets" "lensEncoders").
Proof.
  rewrite <- !double_valid, <- !find_guarded.
  unfold Timing.parseOffsets. destruct (contains json "offsets"); [ | reflexivity ].
  rewrite !bind_run by solve_appends. rewrite !assignField_value.
  destruct (match find (json @ "offsets") "translation" with
            | Some v => checkTypeAndSetField_double v | None => None end),
           (match find (json @ "offsets") "rotation" with
            | Some v => checkTypeAndSetField_double v | None => None end),
           (match find (json @ "offsets") "lensEncoders" with
            | Some v => checkTypeAndSetField_double v | None => None end);
    reflexivity.
Qed.

Lemma Timing_parsePtp_value json errors :
  has_value (fst (Timing.parsePtp json errors))
  = valid_uint16 (find2 json "ptp" "domain")
    || valid_double (find2 json "ptp" "offset")
    || valid_pattern_string mac_pattern (find2 json "ptp" "master").
Proof.
  rewrite <- uint16_valid, <- double_valid, <- !find_guarded.
  unfold Timing.parsePtp. destruct (contains json "ptp"); [ | reflexivity ].
  rewrite !bind_run by solve_appends. rewrite !assignField_value.
  rewrite <- (assignRegexField_value (json @ "ptp") "master" mac_pattern []).
  destruct (match find (json @ "ptp") "domain" with
            | Some v => checkTypeAndSetField_uint16 v | None => None end),
           (match find (json @ "ptp") "offset" with
            | Some v => checkTypeAndSetField_double v | None => None end),
           (fst (assignRegexField (json @ "ptp") "master" None mac_pattern []));
    reflexivity.
Qed.

Lemma appends_Timing_parseOffsets json : appends (Timing.parseOffsets json).
Proof. unfold Timing.parseOffsets. solve_appends. Qed.

Lemma appends_Timing_parsePtp json : appends (Timing.parsePtp json).
Proof. unfold Timing.parsePtp. solve_appends. Qed.

Lemma Timing_parseNonRequired_groups json frequency locked source errors sync errors' :
  Timing.parseNonRequired json frequency locked source errors = (Some sync, errors') ->
  Timing.offsets sync = fst (Timing.parseOffsets json [])
  /\ Timing.ptp sync = fst (Timing.parsePtp json []).
Proof.
  unfold Timing.parseNonRequired.
  rewrite bind_run by apply appends_Timing_parseOffsets.
  rewrite bind_run by solve_appends.
  rewrite bind_run by apply appends_Timing_parsePtp.
  unfold ret. intros [= <- _]. split; reflexivity.
Qed.

Lemma Timing_parseSynchronization_groups json errors sync errors' :
  Timing.parseSynchronization json errors = (Some sync, errors') ->
  Timing.offsets sync = fst (Timing.parseOffsets json [])
  /\ Timing.ptp sync = fst (Timing.parsePtp json []).
Proof.
  unfold Timing.parseSynchronization. cbv zeta.
  destruct (negb (contains json "frequency" && contains json "locked" && contains json "source")).
  { unfold bind, emplace_back, ret. discriminate. }
  rewrite bind_run by solve_appends.
  destruct (fst (call (Rational_parse (json @ "frequency")) [])) as [frequency|];
    [ | unfold bind, emplace_back, ret; discriminate ].
  destruct (checkTypeAndSetField_bool (json @ "locked")) as [locked|];
    [ | unfold bind, emplace_back, ret; discriminate ].
  destruct (checkTypeAndSetField_string (json @ "source")) as [str|];
    [ | unfold bind, emplace_back, ret; discriminate ].
  repeat match goal with
         | |- context [if String.eqb str ?lit then _ else _] =>
             destruct (String.eqb str lit);
             [ apply Timing_parseNonRequired_groups | ]
         end.
  unfold bind, emplace_back, ret. discriminate.
Qed.

(** C5: in a decoded Lens, distortion is present exactly when
    lens.distortion.radial is a present and valid sequence of doubles, and
    undistortion exactly when lens.undistortion.radial is, whatever
    tangential holds; in a decoded Synchronization, offsets and ptp are
    present exactly when at least one of their members is present and
    valid. *)
Theorem optional_groups_collapse (json syncJson : json) (errors : Errors) :
  (forall lens errors',
     Lens.parse json errors = (Some lens, errors') ->
     has_value (Lens.distortion lens)
     = valid_double_array (find3 json "lens" "distortion" "radial")
     /\ has_value (Lens.undistortion lens)
        = valid_double_array (find3 json "lens" "undistortion" "radial"))
  /\ (forall sync errors',
        Timing.parseSynchronization syncJson errors = (Some sync, errors') ->
        has_value (Timing.offsets sync)
        = valid_double (find2 syncJson "offsets" "translation")
          || valid_double (find2 syncJson "offsets" "rotation")
          || valid_double (find2 syncJson "offsets" "lensEncoders")
        /\ has_value (Timing.ptp sync)
           = valid_uint16 (find2 syncJson "ptp" "domain")
             || valid_double (find2 syncJson "ptp" "offset")
             || valid_pattern_string mac_pattern (find2 syncJson "ptp" "master")).
Proof.
  split.
  - intros lens errors'. unfold Lens.parse.
    destruct (negb (contains json "lens")
              && (negb (contains json "static") || negb (contains (json @ "static") "lens"))).
    { unfold ret. discriminate. }
    rewrite bind_run by apply appends_Lens_parseStaticFields.
    rewrite bind_run by apply appends_Lens_parseStandardFields.
    unfold ret. intros [= <- _].
    destruct (Lens_parseStandardFields_groups json
                (fst (Lens.parseStaticFields json Lens.empty [])) []) as [-> ->].
    destruct (Lens_parseStaticFields_groups json Lens.empty []) as [-> ->].
    rewrite !find3_member. unfold contains, at_key.
    destruct (find json "lens") as [lensJson|]; [ | split; reflexivity ].
    split; [ apply Lens_parseDistortion_value | apply Lens_parseUndistortion_value ].
  - intros sync errors' H.
    destruct (Timing_parseSynchronization_groups _ _ H) as [-> ->].
    split; [ apply Timing_parseOffsets_value | apply Timing_parsePtp_value ].
Qed.

(** *** A synchronization section that lacks a required field *)

Lemma lookup_erase_ne key key' fields :
  String.eqb key key' = false ->
  lookup key' (filter (fun kv => negb (String.eqb key (fst kv))) fields)
  = lookup key' fields.
Proof.
  intros Hne. induction fields as [| [k v] rest IH]; [ reflexivity | ].
  cbn [filter fst lookup]. destruct (String.eqb_spec key k) as [<- | Hk]; cbn [negb].
  - rewrite IH. now rewrite String.eqb_sym, Hne.
  - cbn [lookup]. now rewrite IH.
Qed.

Lemma lookup_erase key fields :
  lookup key (filter (fun kv => negb (String.eqb key (fst kv))) fields) = None.
Proof.
  induction fields as [| [k v] rest IH]; [ reflexivity | ].
  cbn [filter fst]. destruct (String.eqb_spec key k) as [<- | Hk]; cbn [negb];
    [ exact IH | ].
  cbn [lookup]. destruct (String.eqb_spec key k); [ contradiction | exact IH ].
Qed.

Lemma find_erase_ne key key' j :
  String.eqb key key' = false -> find (erase key j) key' = find j key'.
Proof. intros H. destruct j; try reflexivity. now apply lookup_erase_ne. Qed.

Lemma find_erase key j : find (erase key j) key = None.
Proof. destruct j; try reflexivity. apply lookup_erase. Qed.

Lemma contains_erase_ne key key' j :
  String.eqb key key' = false -> contains (erase key j) key' = contains j key'.
Proof. intros H. unfold contains. now rewrite find_erase_ne. Qed.

Lemma at_key_erase_ne key key' j :
  String.eqb key key' = false -> erase key j @ key' = j @ key'.
Proof. intros H. unfold at_key. now rewrite find_erase_ne. Qed.

Lemma is_object_erase key j : is_object (erase key j) = is_object j.
Proof. destruct j; reflexivity. Qed.

Lemma find_update_member key f j :
  find (update_member key f j) key = option_map f (find j key).
Proof.
  destruct j; try reflexivity. cbn [update_member find].
  induction fields as [| [k v] rest IH]; [ reflexivity | ].
  cbn [map fst snd lookup].
  destruct (String.eqb_spec key k) as [<- | Hk]; cbn [lookup fst snd].
  - now rewrite String.eqb_refl.
  - destruct (String.eqb_spec key k); [ contradiction | exact IH ].
Qed.

Lemma assignField_erase_ne {T} (check : json -> option T) key j fieldStr field typeStr :
  String.eqb key fieldStr = false ->
  assignField check (erase key j) fieldStr field typeStr
  = assignField check j fieldStr field typeStr.
Proof.
  intros H. unfold assignField. now rewrite contains_erase_ne, at_key_erase_ne.
Qed.

Lemma appends_Timing_parseMode timingJson : appends (Timing.parseMode timingJson).
Proof. unfold Timing.parseMode. solve_appends. Qed.

Lemma appends_Timing_parseSynchronization json : appends (Timing.parseSynchronization json).
Proof.
  unfold Timing.parseSynchronization, Timing.parseNonRequired.
  pose proof (appends_Timing_parseOffsets json).
  pose proof (appends_Timing_parsePtp json).
  solve_appends.
Qed.

(** Lines 461-466. *)
Lemma Timing_parseSynchronization_missing json errors :
  contains json "frequency" && contains json "locked" && contains json "source" = false ->
  Timing.parseSynchronization json errors
  = (None, errors ++ ["field: timing/synchronization is missing required fields"]).
Proof. unfold Timing.parseSynchronization. intros ->. reflexivity. Qed.

Lemma bind_appends {A B} (m : M A) :
  appends m ->
  exists a d, forall (f : A -> M B) errors, bind m f errors = f a (errors ++ d).
Proof.
  intros (a & d & Hm). exists a, d. intros f errors. unfold bind. now rewrite Hm.
Qed.

Lemma Timing_parseMode_erase timingJson :
  Timing.parseMode (erase "synchronization" timingJson) = Timing.parseMode timingJson.
Proof. unfold Timing.parseMode. now rewrite assignField_erase_ne by reflexivity. Qed.

(** One statement of a decoder run kept in [HL : _ = bind m f errors]: the
    value of [m] and the messages it appends take its place. *)
Ltac step HL :=
  match type of HL with
  | _ = @bind _ ?B ?m _ _ =>
      let E := fresh "E" in
      destruct (bind_appends (B := B) (m := m)) as (? & ? & E);
      [ solve_appends
      | rewrite E in HL; clear E; cbv beta in HL; rewrite <- ?app_assoc in HL ]
  end.

(** *** Duration *)

(** [denominator] is never assigned: no document decodes to a Duration. *)
Lemma Duration_parse_never_present (doc : json) (errors : Errors) :
  fst (Duration.parse doc errors) = None.
Proof.
  unfold Duration.parse.
  destruct (negb (contains doc "static") || negb (contains (doc @ "static") "duration"));
    [ reflexivity | ].
  destruct (negb (is_object (doc @ "static" @ "duration"))); [ reflexivity | ].
  cbv zeta. rewrite !bind_run by solve_appends.
  destruct (fst (assignField _ _ "denom" _ _ _)); reflexivity.
Qed.

(** C1: on {"static": {"duration": {"num": 1, "denom": 2}}}, where num and
    denom are both valid uint32 values, [Duration::parse] returns absent and
    appends the missing-required-fields error. *)
Theorem Duration_parse_valid_num_denom :
  Duration.parse Sample.duration_doc []
  = (None, ["field: duration is missing required fields"]).
Proof. reflexivity. Qed.

(** *** Timing.mode *)

Lemma Timing_parseMode_string (timingJson : json) (s : string) (errors : Errors) :
  find timingJson "mode" = Some (JString s) ->
  Timing.parseMode timingJson errors
  = (Some (if String.eqb s "external" then Timing.EXTERNAL else Timing.INTERNAL), errors).
Proof.
  intros H. unfold Timing.parseMode, assignField.
  rewrite (contains_find _ _ H), (at_key_find _ _ H).
  cbn [checkTypeAndSetField_string]. unfold bind, ret, Timing.literal_as_bool.
  cbn [has_value Timing.optional_eqb andb]. now rewrite orb_true_r.
Qed.

Lemma Timing_parseMode_missing (timingJson : json) (errors : Errors) :
  find timingJson "mode" = None ->
  Timing.parseMode timingJson errors
  = (None, errors ++ ["field: timing/mode has an invalid string value."]).
Proof.
  intros H. unfold Timing.parseMode, assignField.
  rewrite (contains_find_None _ _ H). reflexivity.
Qed.

(** The mode of a decoded Timing and the messages about it are those of
    lines 418-428 alone. *)
Lemma Timing_parse_mode (doc timingJson : json) (errors : Errors) :
  find doc "timing" = Some timingJson ->
  is_object timingJson = true ->
  exists timing before after,
    Timing.parse doc errors
    = (Some timing, errors ++ before ++ snd (Timing.parseMode timingJson []) ++ after)
    /\ Timing.mode timing = fst (Timing.parseMode timingJson []).
Proof.
  intros Ht Hobj.
  remember (Timing.parse doc errors) as L eqn:HL.
  unfold Timing.parse in HL.
  rewrite (contains_find _ _ Ht), (at_key_find _ _ Ht), Hobj in HL.
  cbn [negb] in HL. cbv zeta in HL.
  step HL.
  match type of HL with
  | _ = bind _ _ (errors ++ ?acc) => set (before := acc) in *
  end.
  unfold bind at 1 in HL.
  rewrite (appends_run (appends_Timing_parseMode timingJson)) in HL.
  rewrite <- ?app_assoc in HL.
  pose proof (appends_Timing_parseSynchronization (timingJson @ "synchronization")).
  do 5 step HL.
  unfold ret in HL. subst L.
  eexists _, before, _. split; reflexivity.
Qed.

(** Every string value of mode other than "external" is decoded as INTERNAL,
    without a message. *)
Lemma Timing_parse_string_mode (doc timingJson : json) (s : string) (errors : Errors) :
  find doc "timing" = Some timingJson ->
  is_object timingJson = true ->
  find timingJson "mode" = Some (JString s) ->
  exists timing before after,
    Timing.parse doc errors = (Some timing, errors ++ before ++ [] ++ after)
    /\ Timing.mode timing
       = Some (if String.eqb s "external" then Timing.EXTERNAL else Timing.INTERNAL).
Proof.
  intros Ht Hobj Hm.
  destruct (Timing_parse_mode doc errors Ht Hobj) as (timing & before & after & Hp & Hmode).
  rewrite (Timing_parseMode_string _ [] Hm) in Hp, Hmode.
  exists timing, before, after. split; assumption.
Qed.

(** A timing section without the key mode gets the invalid-mode message. *)
Lemma Timing_parse_missing_mode (doc timingJson : json) (errors : Errors) :
  find doc "timing" = Some timingJson ->
  is_object timingJson = true ->
  find timingJson "mode" = None ->
  exists timing before after,
    Timing.parse doc errors
    = (Some timing,
       errors ++ before ++ ["field: timing/mode has an invalid string value."] ++ after)
    /\ Timing.mode timing = None.
Proof.
  intros Ht Hobj Hm.
  destruct (Timing_parse_mode doc errors Ht Hobj) as (timing & before & after & Hp & Hmode).
  rewrite (Timing_parseMode_missing _ [] Hm) in Hp, Hmode.
  exists timing, before, after. split; assumption.
Qed.

(** A primitive parser called under a [contains] guard. *)
Lemma call_guarded_run {T} (parse : json -> option T * list string) j key errors :
  (if contains j key then call (parse (j @ key)) else ret None) errors
  = (fst (parsed_at parse j key), errors ++ snd (parsed_at parse j key)).
Proof.
  unfold parsed_at, contains, at_key, call, ret.
  destruct (find j key); [ reflexivity | ]. cbn. now rewrite app_nil_r.
Qed.

Lemma parsed_at_erase_ne {T} (parse : json -> option T * list string) key key' j :
  String.eqb key key' = false ->
  parsed_at parse (erase key j) key' = parsed_at parse j key'.
Proof. intros H. unfold parsed_at. now rewrite find_erase_ne. Qed.

Lemma assignField_uint16_value j fieldStr typeStr errors :
  fst (assignField checkTypeAndSetField_uint16 j fieldStr None typeStr errors)
  = uint16_at (Some j) fieldStr.
Proof.
  unfold assignField, contains, at_key, uint16_at.
  destruct (find j fieldStr) as [v|]; [ | reflexivity ].
  destruct v; try reflexivity. unfold checkTypeAndSetField_uint16, in_bounds.
  destruct ((0 <=? z) && (z <=? 65535)); reflexivity.
Qed.

(** [Timing::parse] on a timing object, statement by statement: each field
    is the value of its own statement and the errors are those of the
    statements, in the order of the source. *)
Lemma Timing_parse_run (doc timingJson : json) (errors : Errors) :
  find doc "timing" = Some timingJson ->
  is_object timingJson = true ->
  let synchronization :=
    (if contains timingJson "synchronization"
     then Timing.parseSynchronization (timingJson @ "synchronization")
     else ret None) [] in
  let sequenceNumber :=
    assignField checkTypeAndSetField_uint16 timingJson "sequenceNumber" None "uint16" [] in
  Timing.parse doc errors
  = (Some {| Timing.frameRate := fst (parsed_at Rational_parse timingJson "frameRate");
             Timing.mode := fst (Timing.parseMode timingJson []);
             Timing.recordedTimestamp :=
               fst (parsed_at Timestamp_parse timingJson "recordedTimestamp");
             Timing.sampleTimestamp :=
               fst (parsed_at Timestamp_parse timingJson "sampleTimestamp");
             Timing.sequenceNumber := fst sequenceNumber;
             Timing.synchronization := fst synchronization;
             Timing.timecode := fst (parsed_at Timecode_parse timingJson "timecode") |},
     errors
     ++ (snd (parsed_at Rational_parse timingJson "frameRate")
         ++ snd (Timing.parseMode timingJson [])
         ++ snd (parsed_at Timestamp_parse timingJson "recordedTimestamp")
         ++ snd (parsed_at Timestamp_parse timingJson "sampleTimestamp")
         ++ snd sequenceNumber)
     ++ snd synchronization
     ++ snd (parsed_at Timecode_parse timingJson "timecode")).
Proof.
  intros Ht Hobj. cbv zeta. unfold Timing.parse.
  rewrite (contains_find _ _ Ht), (at_key_find _ _ Ht), Hobj. cbn [negb]. cbv zeta.
  pose proof (appends_Timing_parseMode timingJson).
  pose proof (appends_Timing_parseSynchronization (timingJson @ "synchronization")).
  rewrite !bind_run by solve_appends.
  rewrite !call_guarded_run. unfold ret. cbn [fst snd app].
  now rewrite <- !app_assoc.
Qed.

(** C6: when timing.synchronization lacks one of frequency, locked and
    source, [Timing::parse] returns a Timing whose synchronization is absent
    and appends one missing-required-field error, and the sibling fields are
    decoded as they are without that section: frameRate, the two timestamps
    and timecode are what their parsers make of the members, sequenceNumber is
    the uint16 member, mode is EXTERNAL for "external" and INTERNAL for
    "internal"; the other errors are those of the siblings, in the order of
    the fields, and the Timing and these errors are those of the same
    document without timing.synchronization. *)
Theorem synchronization_missing_required_field
    (doc timingJson syncJson : json) (errors : Errors) :
  find doc "timing" = Some timingJson ->
  is_object timingJson = true ->
  find timingJson "synchronization" = Some syncJson ->
  find syncJson "frequency" = None \/ find syncJson "locked" = None
  \/ find syncJson "source" = None ->
  exists timing before after,
    Timing.parse doc errors
    = (Some timing,
       errors ++ before
       ++ ["field: timing/synchronization is missing required fields"] ++ after)
    /\ Timing.synchronization timing = None
    /\ Timing.parse (without_synchronization doc) errors
       = (Some timing, errors ++ before ++ after)
    /\ Timing.frameRate timing = fst (parsed_at Rational_parse timingJson "frameRate")
    /\ Timing.recordedTimestamp timing
       = fst (parsed_at Timestamp_parse timingJson "recordedTimestamp")
    /\ Timing.sampleTimestamp timing
       = fst (parsed_at Timestamp_parse timingJson "sampleTimestamp")
    /\ Timing.sequenceNumber timing = uint16_at (Some timingJson) "sequenceNumber"
    /\ Timing.timecode timing = fst (parsed_at Timecode_parse timingJson "timecode")
    /\ (find timingJson "mode" = Some (JString "external") ->
        Timing.mode timing = Some Timing.EXTERNAL)
    /\ (find timingJson "mode" = Some (JString "internal") ->
        Timing.mode timing = Some Timing.INTERNAL)
    /\ after = snd (parsed_at Timecode_parse timingJson "timecode")
    /\ exists modeErrors sequenceErrors,
         before
         = snd (parsed_at Rational_parse timingJson "frameRate")
           ++ modeErrors
           ++ snd (parsed_at Timestamp_parse timingJson "recordedTimestamp")
           ++ snd (parsed_at Timestamp_parse timingJson "sampleTimestamp")
           ++ sequenceErrors
         /\ (find timingJson "mode" = Some (JString "external")
             \/ find timingJson "mode" = Some (JString "internal") ->
             modeErrors = [])
         /\ List.length sequenceErrors
            = count_true [mistyped is_uint16 (Some timingJson) "sequenceNumber"].
Proof.
  intros Ht Hobj Hs Hmissing.
  assert (Hreq : contains syncJson "frequency" && contains syncJson "locked"
                 && contains syncJson "source" = false).
  { unfold contains.
    destruct Hmissing as [-> | [-> | ->]];
      now rewrite ?andb_false_r. }
  assert (Ht' : find (without_synchronization doc) "timing"
                = Some (erase "synchronization" timingJson)).
  { unfold without_synchronization. now rewrite find_update_member, Ht. }
  assert (Hobj' : is_object (erase "synchronization" timingJson) = true)
    by now rewrite is_object_erase.
  rewrite (Timing_parse_run doc errors Ht Hobj).
  rewrite (Timing_parse_run (without_synchronization doc) errors Ht' Hobj').
  rewrite (contains_find _ _ Hs), (at_key_find _ _ Hs).
  rewrite (Timing_parseSynchronization_missing _ [] Hreq).
  rewrite (contains_find_None _ _ (find_erase "synchronization" timingJson)).
  rewrite !parsed_at_erase_ne, Timing_parseMode_erase, assignField_erase_ne by reflexivity.
  unfold ret. cbn [fst snd app].
  eexists _, _, _. split; [ reflexivity | ].
  cbn [Timing.synchronization Timing.frameRate Timing.recordedTimestamp
       Timing.sampleTimestamp Timing.sequenceNumber Timing.timecode Timing.mode].
  repeat apply conj; try reflexivity.
  - apply assignField_uint16_value.
  - intros Hm. now rewrite (Timing_parseMode_string _ [] Hm).
  - intros Hm. now rewrite (Timing_parseMode_string _ [] Hm).
  - eexists _, _. split; [ reflexivity | ]. split.
    + intros [Hm | Hm]; now rewrite (Timing_parseMode_string _ [] Hm).
    + unfold assignField, contains, at_key, mistyped, count_true.
      destruct (find timingJson "sequenceNumber") as [v|]; [ | reflexivity ].
      destruct v; try reflexivity. unfold checkTypeAndSetField_uint16, in_bounds.
      cbn [is_uint16]. destruct ((0 <=? z) && (z <=? 65535)); reflexivity.
Qed.

(** C2: on {"timing": {"mode": "bogus"}}, whose mode is a string other than
    "external" and "internal", [Timing::parse] sets mode to INTERNAL and
    appends no error. *)
Theorem Timing_parse_bogus_mode :
  Timing.parse Sample.bogus_mode_doc []
  = (Some {| Timing.frameRate := None;
             Timing.mode := Some Timing.INTERNAL;
             Timing.recordedTimestamp := None;
             Timing.sampleTimestamp := None;
             Timing.sequenceNumber := None;
             Timing.synchronization := None;
             Timing.timecode := None |},
     []).
Proof. reflexivity. Qed.

(** C9: on {"timing": {}}, a timing object without the key mode,
    [Timing::parse] leaves mode absent and appends the invalid-mode error. *)
Theorem Timing_parse_no_mode :
  Timing.parse Sample.no_mode_doc []
  = (Some {| Timing.frameRate := None;
             Timing.mode := None;
             Timing.recordedTimestamp := None;
             Timing.sampleTimestamp := None;
             Timing.sequenceNumber := None;
             Timing.synchronization := None;
             Timing.timecode := None |},
     ["field: timing/mode has an invalid string value."]).
Proof. reflexivity. Qed.

(** *** Camera.shutterAngle *)

Lemma Camera_checkShutterAngle_above (value : Z) (errors : Errors) :
  360000 < value ->
  Camera.checkShutterAngle (Some value) errors
  = (None, errors ++ ["field: shutterAngle is outside the expected range 1 - 360000."]).
Proof.
  intros H. unfold Camera.checkShutterAngle.
  destruct (Z.gtb_spec value 360000); [ reflexivity | lia ].
Qed.

(** Only the upper bound is tested. *)
Lemma Camera_checkShutterAngle_not_above (value : Z) (errors : Errors) :
  value <= 360000 ->
  Camera.checkShutterAngle (Some value) errors = (Some value, errors).
Proof.
  intros H. unfold Camera.checkShutterAngle.
  destruct (Z.gtb_spec value 360000); [ lia | reflexivity ].
Qed.

(** C3: on {"static": {"camera": {"label": "A", "shutterAngle": 0}}}, whose
    shutter angle is below the range 1 - 360000, [Camera::parse] keeps the
    shutter angle 0 and appends no error. *)
Theorem Camera_parse_zero_shutterAngle :
  Camera.parse Sample.zero_shutter_doc []
  = (Some {| Camera.activeSensorPhysicalDimensions := None;
             Camera.activeSensorResolution := None;
             Camera.anamorphicSqueeze := None;
             Camera.firmwareVersion := None;
             Camera.label := Some "A";
             Camera.make := None;
             Camera.model := None;
             Camera.serialNumber := None;
             Camera.captureFrameRate := None;
             Camera.fdlLink := None;
             Camera.isoSpeed := None;
             Camera.shutterAngle := Some 0 |},
     []).
Proof. reflexivity. Qed.

Example Camera_parse_wide_shutterAngle :
  Camera.parse Sample.wide_shutter_doc []
  = (Some {| Camera.activeSensorPhysicalDimensions := None;
             Camera.activeSensorResolution := None;
             Camera.anamorphicSqueeze := None;
             Camera.firmwareVersion := None;
             Camera.label := Some "A";
             Camera.make := None;
             Camera.model := None;
             Camera.serialNumber := None;
             Camera.captureFrameRate := None;
             Camera.fdlLink := None;
             Camera.isoSpeed := None;
             Camera.shutterAngle := None |},
     ["field: shutterAngle is outside the expected range 1 - 360000."]).
Proof. reflexivity. Qed.

(** *** Protocol.version *)

Lemma regex_match_Alt s : forall r1 r2,
  Regex.regex_match s (Regex.Alt r1 r2)
  = Regex.regex_match s r1 || Regex.regex_match s r2.
Proof.
  induction s as [| c s IH]; intros r1 r2; [ reflexivity | ].
  cbn [Regex.regex_match Regex.deriv]. apply IH.
Qed.

Lemma regex_match_Seq_nullable s : forall r1 r2,
  Regex.nullable r1 = true ->
  Regex.regex_match s r2 = true ->
  Regex.regex_match s (Regex.Seq r1 r2) = true.
Proof.
  destruct s as [| c s]; intros r1 r2 Hn H2.
  - cbn in *. now rewrite Hn, H2.
  - cbn [Regex.regex_match Regex.deriv] in *. rewrite Hn, regex_match_Alt, H2.
    apply orb_true_r.
Qed.

(** A match of [r1] followed by a match of [r2] is a match of [r1 r2]. *)
Lemma regex_match_Seq s1 : forall s2 r1 r2,
  Regex.regex_match s1 r1 = true ->
  Regex.regex_match s2 r2 = true ->
  Regex.regex_match (s1 ++ s2)%string (Regex.Seq r1 r2) = true.
Proof.
  induction s1 as [| c s1 IH]; intros s2 r1 r2 H1 H2.
  - now apply regex_match_Seq_nullable.
  - cbn [String.append Regex.regex_match Regex.deriv] in *.
    destruct (Regex.nullable r1).
    + rewrite regex_match_Alt, IH by assumption. reflexivity.
    + now apply IH.
Qed.

Lemma regex_match_Star_digits s :
  all_digits s = true ->
  Regex.regex_match s (Regex.Star Regex.digit) = true.
Proof.
  induction s as [| c s IH]; intros H; [ reflexivity | ].
  cbn [all_digits] in H. apply andb_prop in H as [Hc Hs].
  cbn [Regex.regex_match Regex.deriv Regex.digit]. rewrite Hc.
  apply regex_match_Seq_nullable; auto.
Qed.

Lemma regex_match_decimal s :
  decimal s = true ->
  Regex.regex_match s (Regex.plus Regex.digit) = true.
Proof.
  destruct s as [| c s]; [ discriminate | ].
  cbn [decimal all_digits]. intros H. apply andb_prop in H as [Hc Hs].
  change (String c s) with (String c EmptyString ++ s)%string.
  apply regex_match_Seq; [ | now apply regex_match_Star_digits ].
  cbn. now rewrite Hc.
Qed.

Lemma regex_match_dot : Regex.regex_match "." Regex.any = true.
Proof. reflexivity. Qed.

(** The versions made of three dot-separated non-negative integers match the
    pattern of line 308. *)
Lemma version_pattern_accepts_dotted (major minor patch : string) :
  decimal major = true -> decimal minor = true -> decimal patch = true ->
  Regex.regex_match (dotted major minor patch) version_pattern = true.
Proof.
  intros H1 H2 H3. unfold dotted, version_pattern.
  repeat first [ apply regex_match_decimal; assumption
               | apply regex_match_dot
               | apply regex_match_Seq ].
Qed.

(** The outcome of [Protocol::parse] on a protocol section with a string
    name, by the version it holds. *)
Lemma Protocol_parse_string_name (doc proJson : json) (name : string) (errors : Errors) :
  find doc "protocol" = Some proJson ->
  find proJson "name" = Some (JString name) ->
  Protocol.parse doc errors
  = Some match find proJson "version" with
         | None => (None, errors)
         | Some (JString value) =>
             if Regex.regex_match value version_pattern
             then (Some {| Protocol.name := name; Protocol.version := value |}, errors)
             else (None, errors ++ ["field: version doesn't match required pattern"])
         | Some _ => (None, errors ++ ["field: version isn't of type: string"])
         end.
Proof.
  intros Hp Hn. unfold Protocol.parse.
  rewrite (contains_find _ _ Hp), (at_key_find _ _ Hp), Hn. cbn [negb].
  cbn [checkTypeAndSetField_string]. unfold assignRegexField, contains, at_key.
  destruct (find proJson "version") as [v|]; [ | reflexivity ].
  destruct v; try reflexivity. cbn [checkTypeAndSetField_string].
  destruct (Regex.regex_match s version_pattern); reflexivity.
Qed.

(** Three dot-separated non-negative integers are accepted, the name and
    the version being kept. *)
Lemma Protocol_parse_dotted_version (doc proJson : json) (name major minor patch : string)
    (errors : Errors) :
  find doc "protocol" = Some proJson ->
  find proJson "name" = Some (JString name) ->
  find proJson "version" = Some (JString (dotted major minor patch)) ->
  decimal major = true -> decimal minor = true -> decimal patch = true ->
  Protocol.parse doc errors
  = Some (Some {| Protocol.name := name; Protocol.version := dotted major minor patch |},
          errors).
Proof.
  intros Hp Hn Hv H1 H2 H3.
  rewrite (Protocol_parse_string_name _ errors Hp Hn), Hv.
  now rewrite version_pattern_accepts_dotted.
Qed.

(** C4: on {"protocol": {"name": "OpenTrackIO", "version": "1a0b0"}}, whose
    version is not made of three dot-separated integers, [Protocol::parse]
    returns a present Protocol and appends no error. *)
Theorem Protocol_parse_undotted_version :
  Protocol.parse Sample.undotted_version_doc []
  = Some (Some {| Protocol.name := "OpenTrackIO"; Protocol.version := "1a0b0" |}, []).
Proof. vm_compute. reflexivity. Qed.

Example Protocol_parse_short_version :
  Protocol.parse Sample.short_version_doc []
  = Some (None, ["field: version doesn't match required pattern"]).
Proof. vm_compute. reflexivity. Qed.

Example Protocol_parse_no_version :
  Protocol.parse Sample.no_version_doc [] = Some (None, []).
Proof. vm_compute. reflexivity. Qed.

End Properties.

(** ** The patterns and the decoders on concrete documents *)

Example uuid_pattern_accepts :
  Regex.regex_match "urn:uuid:12345678-1234-1234-1234-123456789abc" uuid_pattern = true.
Proof. vm_compute. reflexivity. Qed.

Example uuid_pattern_rejects :
  Regex.regex_match "not-a-uuid" uuid_pattern = false.
Proof. vm_compute. reflexivity. Qed.

Example uuid_pattern_rejects_upper :
  Regex.regex_match "urn:uuid:12345678-1234-1234-1234-123456789ABC" uuid_pattern = false.
Proof. vm_compute. reflexivity. Qed.

Example version_pattern_accepts :
  Regex.regex_match "1.0.12" version_pattern = true.
Proof. vm_compute. reflexivity. Qed.

Example version_pattern_rejects :
  Regex.regex_match "1.0" version_pattern = false.
Proof. vm_compute. reflexivity. Qed.

Example mac_pattern_accepts :
  Regex.regex_match "00:1A:2B:3C:4D:5E" mac_pattern = true.
Proof. vm_compute. reflexivity. Qed.

Example mac_pattern_rejects :
  Regex.regex_match "00:1a:2b:3c:4d:5e" mac_pattern = false.
Proof. vm_compute. reflexivity. Qed.

(** 2^53 + 1 is halfway between two doubles and goes to the even one, 2^53. *)
Example double_of_integer_rounds :
  double_of_integer 9007199254740993 = S754_finite false 4503599627370496 1
  /\ double_of_integer 9007199254740993 = double_of_integer 9007199254740992.
Proof. vm_compute. split; reflexivity. Qed.

Example double_of_integer_small :
  double_of_integer 1 = S754_finite false 4503599627370496 (-52)
  /\ double_of_integer 0 = S754_zero false
  /\ double_of_integer (-3) = S754_finite true 6755399441055744 (-51).
Proof. vm_compute. repeat split. Qed.

Example version_pattern_accepts_any_separator :
  Regex.regex_match "1a0b0" version_pattern = true.
Proof. vm_compute. reflexivity. Qed.

Lemma absent_section_is_silent_witness :
  Camera.parse (P := Sample.types) Sample.unrelated_doc ["earlier"] = (None, ["earlier"]) /\
  Duration.parse Sample.unrelated_doc ["earlier"] = (None, ["earlier"]) /\
  GlobalStage.parse Sample.unrelated_doc ["earlier"] = (None, ["earlier"]) /\
  Lens.parse (P := Sample.types) Sample.unrelated_doc ["earlier"] = (None, ["earlier"]) /\
  Protocol.parse Sample.unrelated_doc ["earlier"] = Some (None, ["earlier"]) /\
  RelatedSampleIds.parse Sample.unrelated_doc ["earlier"] = (None, ["earlier"]) /\
  SampleId.parse Sample.unrelated_doc ["earlier"] = (None, ["earlier"]) /\
  StreamId.parse Sample.unrelated_doc ["earlier"] = (None, ["earlier"]) /\
  Timing.parse (P := Sample.types) Sample.unrelated_doc ["earlier"] = (None, ["earlier"]) /\
  Tracker.parse Sample.unrelated_doc ["earlier"] = (None, ["earlier"]) /\
  Transforms.parse (P := Sample.types) Sample.unrelated_doc ["earlier"] = (None, ["earlier"]).
Proof.
  pose proof (absent_section_is_silent (P := Sample.types) Sample.unrelated_doc ["earlier"])
    as (H1 & H2 & H3 & H4 & H5 & H6 & H7 & H8 & H9 & H10 & H11).
  exact (conj (H1 eq_refl) (conj (H2 eq_refl) (conj (H3 eq_refl)
           (conj (H4 eq_refl eq_refl) (conj (H5 eq_refl) (conj (H6 eq_refl)
           (conj (H7 eq_refl) (conj (H8 eq_refl) (conj (H9 eq_refl)
           (conj (H10 eq_refl eq_refl) (H11 eq_refl))))))))))).
Defined.

Lemma present_section_is_kept_witness :
  (exists lens appended,
     Lens.parse (P := Sample.types) Sample.invalid_fields_doc ["earlier"]
     = (Some lens, ["earlier"] ++ appended)) /\
  (exists tkr appended,
     Tracker.parse Sample.invalid_fields_doc ["earlier"]
     = (Some tkr, ["earlier"] ++ appended)).
Proof.
  split.
  - apply (proj1 (present_section_is_kept (P := Sample.types)
                    Sample.invalid_fields_doc ["earlier"])).
    left. simpl. discriminate.
  - apply (proj2 (present_section_is_kept (P := Sample.types)
                    Sample.invalid_fields_doc ["earlier"])).
    right. simpl. discriminate.
Defined.

(** Every sub-field of the document fails validation: the Lens and the
    Tracker are present with every field absent. *)
Example Lens_parse_invalid_fields :
  Lens.parse (P := Sample.types) Sample.invalid_fields_doc []
  = (Some Lens.empty,
     ["field: make isn't of type: string";
      "field: model isn't of type: string";
      "field: fStop isn't of type: uint32";
      "field: focalLength isn't of type: double"]).
Proof. vm_compute. reflexivity. Qed.

Example Tracker_parse_invalid_fields :
  Tracker.parse Sample.invalid_fields_doc []
  = (Some Tracker.empty, ["field: make isn't of type: string"]).
Proof. vm_compute. reflexivity. Qed.

Lemma RelatedSampleIds_keeps_valid_elements_witness :
  exists samples,
    RelatedSampleIds.parse Sample.related_doc ["earlier"]
    = (Some {| RelatedSampleIds.samples := samples |},
       ["earlier"]
       ++ map element_error
            (filter (fun item => negb (valid_sample item)) Sample.related_items))
    /\ map JString samples = filter valid_sample Sample.related_items.
Proof.
  apply (RelatedSampleIds_keeps_valid_elements Sample.related_doc ["earlier"]).
  reflexivity.
Defined.

Example RelatedSampleIds_parse_related_doc :
  RelatedSampleIds.parse Sample.related_doc []
  = (Some {| RelatedSampleIds.samples :=
               ["urn:uuid:12345678-1234-1234-1234-123456789abc";
                "urn:uuid:00000000-0000-0000-0000-000000000001"] |},
     ["field: relatedSampleIds/element doesn't match required pattern";
      "field: relatedSampleIds/element isn't of type: string"]).
Proof. vm_compute. reflexivity. Qed.

Lemma optional_groups_collapse_witness :
  exists lens sync,
    Lens.parse (P := Sample.types) Sample.groups_doc []
    = (Some lens, ["field: tangential isn't of type: double"])
    /\ Timing.parseSynchronization (P := Sample.types) Sample.groups_sync []
       = (Some sync, ["field: domain isn't of type: uint16"])
    /\ has_value (Lens.distortion lens) = true
    /\ has_value (Lens.undistortion lens) = false
    /\ has_value (Timing.offsets sync) = false
    /\ has_value (Timing.ptp sync) = true.
Proof.
  pose proof (optional_groups_collapse (P := Sample.types)
                Sample.groups_doc Sample.groups_sync []) as [HL HS].
  eexists _, _. split; [ reflexivity | ]. split; [ reflexivity | ].
  destruct (HL _ _ eq_refl) as [Hd Hu]. destruct (HS _ _ eq_refl) as [Ho Hp].
  exact (conj Hd (conj Hu (conj Ho Hp))).
Defined.

Lemma synchronization_missing_required_field_witness :
  exists timing before after,
    Timing.parse (P := Sample.types) Sample.siblings_doc ["earlier"]
    = (Some timing,
       ["earlier"] ++ before
       ++ ["field: timing/synchronization is missing required fields"] ++ after)
    /\ Timing.synchronization timing = None
    /\ Timing.parse (without_synchronization Sample.siblings_doc) ["earlier"]
       = (Some timing, ["earlier"] ++ before ++ after)
    /\ Timing.frameRate timing = Some (JObject [("num", JInt 24); ("denom", JInt 1)])
    /\ Timing.recordedTimestamp timing = None
    /\ Timing.sampleTimestamp timing = Some (JObject [("seconds", JInt 1)])
    /\ Timing.sequenceNumber timing = Some 7
    /\ Timing.timecode timing = Some (JObject [("hours", JInt 1)])
    /\ Timing.mode timing = Some Timing.INTERNAL
    /\ after = []
    /\ exists modeErrors sequenceErrors,
         before
         = [] ++ modeErrors ++ ["field: timestamp isn't of type: object"] ++ []
           ++ sequenceErrors
         /\ modeErrors = []
         /\ List.length sequenceErrors = 0%nat.
Proof.
  destruct (synchronization_missing_required_field (P := Sample.types)
              Sample.siblings_doc (timingJson := Sample.siblings_timing)
              (syncJson := Sample.unlocked_sync) ["earlier"]
              eq_refl eq_refl eq_refl (or_intror (or_introl eq_refl)))
    as (timing & before & after & H1 & H2 & H3 & H4 & H5 & H6 & H7 & H8 & _ & H10
        & H11 & H12).
  destruct H12 as (modeErrors & sequenceErrors & Hb & Hm & Hq).
  exists timing, before, after.
  split; [ exact H1 | ]. split; [ exact H2 | ]. split; [ exact H3 | ].
  split; [ exact H4 | ]. split; [ exact H5 | ]. split; [ exact H6 | ].
  split; [ exact H7 | ]. split; [ exact H8 | ]. split; [ exact (H10 eq_refl) | ].
  split; [ exact H11 | ].
  exists modeErrors, sequenceErrors.
  split; [ exact Hb | ]. split; [ exact (Hm (or_intror eq_refl)) | exact Hq ].
Defined.

Example Timing_parse_unlocked_doc :
  Timing.parse (P := Sample.types) Sample.unlocked_doc []
  = (Some {| Timing.frameRate := None;
             Timing.mode := Some Timing.EXTERNAL;
             Timing.recordedTimestamp := None;
             Timing.sampleTimestamp := None;
             Timing.sequenceNumber := Some 7;
             Timing.synchronization := None;
             Timing.timecode := Some (JObject [] : @Timecode Sample.types) |},
     ["field: rational isn't of type: object";
      "field: timing/synchronization is missing required fields"]).
Proof. vm_compute. reflexivity. Qed.

(** ** Further properties of the decoders *)

Lemma at_key_find2 j a b v : find2 j a b = Some v -> j @ a @ b = v.
Proof.
  unfold find2, at_key. destruct (find j a) as [w|]; [ | discriminate ].
  now intros ->.
Qed.

Lemma find_update_member_ne key key' f j :
  String.eqb key key' = false -> find (update_member key f j) key' = find j key'.
Proof.
  intros Hne. destruct j; try reflexivity. cbn [update_member find].
  induction fields as [| [k v] rest IH]; [ reflexivity | ].
  cbn [map fst snd]. destruct (String.eqb_spec key k) as [<- | Hk]; cbn [lookup].
  - rewrite String.eqb_sym, Hne. exact IH.
  - now rewrite IH.
Qed.

(** The outcome of [assignField] on a target that holds no value. *)
Lemma assignField_run {T} (check : json -> option T) j fieldStr typeStr errors :
  assignField check j fieldStr None typeStr errors
  = match find j fieldStr with
    | None => (None, errors)
    | Some v =>
        match check v with
        | Some x => (Some x, errors)
        | None =>
            (None, errors ++ [("field: " ++ fieldStr ++ " isn't of type: " ++ typeStr)%string])
        end
    end.
Proof.
  unfold assignField, contains, at_key.
  destruct (find j fieldStr) as [v|]; [ | reflexivity ].
  destruct (check v); reflexivity.
Qed.

Lemma assignRegexField_run j fieldStr pattern errors :
  assignRegexField j fieldStr None pattern errors
  = match find j fieldStr with
    | None => (None, errors)
    | Some (JString s) =>
        if Regex.regex_match s pattern
        then (Some s, errors)
        else (None, errors ++ [("field: " ++ fieldStr ++ " doesn't match required pattern")%string])
    | Some _ => (None, errors ++ [("field: " ++ fieldStr ++ " isn't of type: string")%string])
    end.
Proof.
  unfold assignRegexField, contains, at_key.
  destruct (find j fieldStr) as [v|]; [ | reflexivity ].
  destruct v; try reflexivity. cbn [checkTypeAndSetField_string].
  destruct (Regex.regex_match s pattern); reflexivity.
Qed.

(** One statement of a decoder run kept in [H : _ = bind m f errors]: the
    value of [m] and the messages it appends take its place. *)
Ltac run_step H :=
  match type of H with
  | _ = @bind _ ?B ?m _ _ =>
      let E := fresh "E" in
      destruct (bind_appends (B := B) (m := m)) as (? & ? & E);
      [ solve_appends
      | rewrite E in H; clear E; cbv beta in H; rewrite <- ?app_assoc in H ]
  end.

Section Decoders.
  Context {P : PrimitiveTypes}.

(** *** The error vector is only appended to *)

Lemma appends_RelatedSampleIds_loop items : forall samples,
  appends (RelatedSampleIds.loop items samples).
Proof.
  induction items as [| item rest IH]; intros samples; cbn [RelatedSampleIds.loop];
    solve_appends.
Qed.

Lemma appends_Transforms_loop items : forall transforms,
  appends (Transforms.loop items transforms).
Proof.
  induction items as [| item rest IH]; intros transforms; cbn [Transforms.loop];
    solve_appends.
Qed.

Lemma appends_GlobalStage_fieldCheckAndAssign gsJson fieldStr :
  appends (GlobalStage.fieldCheckAndAssign gsJson fieldStr).
Proof. unfold GlobalStage.fieldCheckAndAssign. solve_appends. Qed.

Lemma appends_Camera_parse doc : appends (Camera.parse doc).
Proof. unfold Camera.parse, Camera.checkShutterAngle. solve_appends. Qed.

Lemma appends_Duration_parse doc : appends (Duration.parse doc).
Proof. unfold Duration.parse. solve_appends. Qed.

Lemma appends_GlobalStage_parse doc : appends (GlobalStage.parse doc).
Proof.
  unfold GlobalStage.parse, GlobalStage.and_then.
  pose proof appends_GlobalStage_fieldCheckAndAssign. solve_appends.
Qed.

Lemma appends_Lens_parse doc : appends (Lens.parse doc).
Proof.
  unfold Lens.parse.
  pose proof appends_Lens_parseStaticFields. pose proof appends_Lens_parseStandardFields.
  solve_appends.
Qed.

Lemma appends_RelatedSampleIds_parse doc : appends (RelatedSampleIds.parse doc).
Proof.
  unfold RelatedSampleIds.parse. pose proof appends_RelatedSampleIds_loop. solve_appends.
Qed.

Lemma appends_SampleId_parse doc : appends (SampleId.parse doc).
Proof. unfold SampleId.parse. solve_appends. Qed.

Lemma appends_StreamId_parse doc : appends (StreamId.parse doc).
Proof. unfold StreamId.parse. solve_appends. Qed.

Lemma appends_Timing_parse doc : appends (Timing.parse doc).
Proof.
  unfold Timing.parse.
  pose proof appends_Timing_parseMode. pose proof appends_Timing_parseSynchronization.
  solve_appends.
Qed.

Lemma appends_Tracker_parse doc : appends (Tracker.parse doc).
Proof.
  unfold Tracker.parse.
  pose proof appends_Tracker_parseStaticFields.
  pose proof appends_Tracker_parseStandardFields.
  solve_appends.
Qed.

Lemma appends_Transforms_parse doc : appends (Transforms.parse doc).
Proof. unfold Transforms.parse. pose proof appends_Transforms_loop. solve_appends. Qed.

(** X1: every decoder returns the same value whatever the error vector
    holds on entry, keeps the errors it finds there in place and adds its own
    at the end.  [Protocol::parse], which may not return, does so whenever it
    returns. *)
Theorem decoders_only_append (doc : json) :
  appends (Camera.parse doc) /\ appends (Duration.parse doc)
  /\ appends (GlobalStage.parse doc) /\ appends (Lens.parse doc)
  /\ appends (RelatedSampleIds.parse doc) /\ appends (SampleId.parse doc)
  /\ appends (StreamId.parse doc) /\ appends (Timing.parse doc)
  /\ appends (Tracker.parse doc) /\ appends (Transforms.parse doc)
  /\ ((forall errors, Protocol.parse doc errors = None)
      \/ exists pro appended,
           forall errors, Protocol.parse doc errors = Some (pro, errors ++ appended)).
Proof.
  repeat apply conj;
    [ apply appends_Camera_parse | apply appends_Duration_parse
    | apply appends_GlobalStage_parse | apply appends_Lens_parse
    | apply appends_RelatedSampleIds_parse | apply appends_SampleId_parse
    | apply appends_StreamId_parse | apply appends_Timing_parse
    | apply appends_Tracker_parse | apply appends_Transforms_parse | ].
  unfold Protocol.parse.
  destruct (negb (contains doc "protocol")).
  { right. exists None, []. intros errors. now rewrite app_nil_r. }
  destruct (find (doc @ "protocol") "name") as [nameJson|]; [ | now left ].
  right.
  assert (H : appends
                match checkTypeAndSetField_string nameJson with
                | None => emplace_back "field: protocol isn't of type: string" ;; ret None
                | Some name =>
                    versionStr <- assignRegexField (doc @ "protocol") "version" None
                                    version_pattern ;;
                    match versionStr with
                    | None => ret None
                    | Some value =>
                        ret (Some {| Protocol.name := name; Protocol.version := value |})
                    end
                end) by solve_appends.
  destruct H as (pro & appended & H). exists pro, appended. intros errors. now rewrite H.
Qed.

(** *** GlobalStage *)

Lemma number_at_check j key :
  number_at (Some j) key
  = match find j key with Some v => checkTypeAndSetField_double v | None => None end.
Proof. unfold number_at. destruct (find j key) as [v|]; [ destruct v | ]; reflexivity. Qed.

Lemma GlobalStage_field_some gsJson fieldStr d errors :
  number_at (Some gsJson) fieldStr = Some d ->
  GlobalStage.fieldCheckAndAssign gsJson fieldStr errors = (Some d, errors).
Proof.
  rewrite number_at_check. unfold GlobalStage.fieldCheckAndAssign, contains, at_key.
  destruct (find gsJson fieldStr) as [v|]; [ | discriminate ].
  cbn [negb]. now intros ->.
Qed.

Lemma GlobalStage_field_none gsJson fieldStr errors :
  number_at (Some gsJson) fieldStr = None ->
  exists msg, GlobalStage.fieldCheckAndAssign gsJson fieldStr errors = (None, errors ++ [msg]).
Proof.
  rewrite number_at_check. unfold GlobalStage.fieldCheckAndAssign, contains, at_key.
  destruct (find gsJson fieldStr) as [v|]; cbn [negb].
  - intros ->. eexists. reflexivity.
  - intros _. eexists. reflexivity.
Qed.

(** One field of the chain of [&&]: either it is a number and the chain goes
    on with the vector unchanged, or the chain stops with one message. *)
Ltac stage_field gsJson fieldStr errors :=
  let d := fresh "d" in
  let E := fresh "E" in
  let msg := fresh "msg" in
  let Hm := fresh "Hm" in
  destruct (number_at (Some gsJson) fieldStr) as [d|] eqn:E;
  [ rewrite (GlobalStage_field_some _ _ errors E)
  | destruct (GlobalStage_field_none _ _ errors E) as (msg & Hm); rewrite Hm ].

Lemma GlobalStage_parse_object (doc gsJson : json) (errors : Errors) :
  find doc "globalStage" = Some gsJson ->
  is_object gsJson = true ->
  match number_at (Some gsJson) "E", number_at (Some gsJson) "N",
        number_at (Some gsJson) "U", number_at (Some gsJson) "lat0",
        number_at (Some gsJson) "lon0", number_at (Some gsJson) "h0" with
  | Some e, Some n, Some u, Some lat0, Some lon0, Some h0 =>
      GlobalStage.parse doc errors
      = (Some {| GlobalStage.e := e; GlobalStage.n := n; GlobalStage.u := u;
                 GlobalStage.lat0 := lat0; GlobalStage.lon0 := lon0;
                 GlobalStage.h0 := h0 |}, errors)
  | _, _, _, _, _, _ =>
      exists msg, GlobalStage.parse doc errors = (None, errors ++ [msg])
  end.
Proof.
  intros Hs Hobj. unfold GlobalStage.parse.
  rewrite (contains_find _ _ Hs), (at_key_find _ _ Hs), Hobj. cbn [negb]. cbv zeta.
  unfold GlobalStage.and_then, bind.
  stage_field gsJson "E" errors; [ | eexists; reflexivity ].
  stage_field gsJson "N" errors; [ | eexists; reflexivity ].
  stage_field gsJson "U" errors; [ | eexists; reflexivity ].
  stage_field gsJson "lat0" errors; [ | eexists; reflexivity ].
  stage_field gsJson "lon0" errors; [ | eexists; reflexivity ].
  stage_field gsJson "h0" errors; [ | eexists; reflexivity ].
  reflexivity.
Qed.

(** X2: when the document has globalStage, [GlobalStage::parse] returns a
    present GlobalStage exactly when E, N, U, lat0, lon0 and h0 are all
    numbers; the GlobalStage then holds the six doubles these members are
    read as (an integer member being converted to the nearest double) and no
    error is appended. *)
Theorem GlobalStage_present_iff (doc gsJson : json) (errors : Errors)
    (gs : GlobalStage.t) (errors' : Errors) :
  find doc "globalStage" = Some gsJson ->
  GlobalStage.parse doc errors = (Some gs, errors')
  <-> errors' = errors
      /\ number_at (Some gsJson) "E" = Some (GlobalStage.e gs)
      /\ number_at (Some gsJson) "N" = Some (GlobalStage.n gs)
      /\ number_at (Some gsJson) "U" = Some (GlobalStage.u gs)
      /\ number_at (Some gsJson) "lat0" = Some (GlobalStage.lat0 gs)
      /\ number_at (Some gsJson) "lon0" = Some (GlobalStage.lon0 gs)
      /\ number_at (Some gsJson) "h0" = Some (GlobalStage.h0 gs).
Proof.
  intros Hs. destruct (is_object gsJson) eqn:Hobj.
  - pose proof (GlobalStage_parse_object doc errors Hs Hobj) as H.
    destruct (number_at (Some gsJson) "E"), (number_at (Some gsJson) "N"),
      (number_at (Some gsJson) "U"), (number_at (Some gsJson) "lat0"),
      (number_at (Some gsJson) "lon0"), (number_at (Some gsJson) "h0");
      try (destruct H as (msg & ->); split;
           [ discriminate | intros (_ & ? & ? & ? & ? & ? & ?); discriminate ]).
    rewrite H. split.
    + intros [= <- <-]. repeat split.
    + intros (-> & [= ->] & [= ->] & [= ->] & [= ->] & [= ->] & [= ->]).
      destruct gs; reflexivity.
  - split.
    + unfold GlobalStage.parse.
      rewrite (contains_find _ _ Hs), (at_key_find _ _ Hs), Hobj. discriminate.
    + intros (_ & HE & _). destruct gsJson; discriminate.
Qed.

(** X3: when the document has globalStage and no GlobalStage is returned,
    exactly one error is appended: the section is not an object, or the chain
    of field checks stopped at the first field that is missing or not a
    number. *)
Theorem GlobalStage_absent_one_error (doc gsJson : json) (errors : Errors) :
  find doc "globalStage" = Some gsJson ->
  fst (GlobalStage.parse doc errors) = None ->
  exists msg, GlobalStage.parse doc errors = (None, errors ++ [msg]).
Proof.
  intros Hs. destruct (is_object gsJson) eqn:Hobj.
  - pose proof (GlobalStage_parse_object doc errors Hs Hobj) as H.
    destruct (number_at (Some gsJson) "E"), (number_at (Some gsJson) "N"),
      (number_at (Some gsJson) "U"), (number_at (Some gsJson) "lat0"),
      (number_at (Some gsJson) "lon0"), (number_at (Some gsJson) "h0");
      try (intros _; exact H).
    rewrite H. discriminate.
  - intros _. unfold GlobalStage.parse.
    rewrite (contains_find _ _ Hs), (at_key_find _ _ Hs), Hobj. eexists. reflexivity.
Qed.

(** *** Sections of the wrong kind *)

(** X4: a section that is present but is not of the kind its decoder
    expects (an object for camera, duration, globalStage and timing, an array
    for relatedSampleIds and transforms) makes the decoder return absent and
    append exactly one error. *)
Theorem section_of_wrong_kind (doc : json) (errors : Errors) :
  (forall v, find2 doc "static" "camera" = Some v -> is_object v = false ->
     Camera.parse doc errors = (None, errors ++ ["field: camera isn't of type: object"]))
  /\ (forall v, find2 doc "static" "duration" = Some v -> is_object v = false ->
        Duration.parse doc errors
        = (None, errors ++ ["field: duration isn't of type: object"]))
  /\ (forall v, find doc "globalStage" = Some v -> is_object v = false ->
        GlobalStage.parse doc errors
        = (None, errors ++ ["field: globalStage isn't of type: object"]))
  /\ (forall v, find doc "timing" = Some v -> is_object v = false ->
        Timing.parse doc errors = (None, errors ++ ["field: timing isn't of type: object"]))
  /\ (forall v, find doc "relatedSampleIds" = Some v -> is_array v = false ->
        RelatedSampleIds.parse doc errors
        = (None, errors ++ ["field: relatedSampleIds isn't of type: array"]))
  /\ (forall v, find doc "transforms" = Some v -> is_array v = false ->
        Transforms.parse doc errors = (None, errors ++ ["Transforms is not an array."])).
Proof.
  repeat apply conj; intros v Hv Hk.
  - unfold Camera.parse. now rewrite guard_find2, Hv, (at_key_find2 _ _ _ Hv), Hk.
  - unfold Duration.parse. now rewrite guard_find2, Hv, (at_key_find2 _ _ _ Hv), Hk.
  - unfold GlobalStage.parse.
    now rewrite (contains_find _ _ Hv), (at_key_find _ _ Hv), Hk.
  - unfold Timing.parse. now rewrite (contains_find _ _ Hv), (at_key_find _ _ Hv), Hk.
  - unfold RelatedSampleIds.parse.
    rewrite (contains_find _ _ Hv), (at_key_find _ _ Hv).
    destruct v; try reflexivity. discriminate.
  - unfold Transforms.parse.
    rewrite (contains_find _ _ Hv), (at_key_find _ _ Hv).
    destruct v; try reflexivity. discriminate.
Qed.

Lemma assignField_not_object {T} (check : json -> option T) j fieldStr field typeStr :
  is_object j = false -> assignField check j fieldStr field typeStr = ret field.
Proof. intros H. unfold assignField, contains. destruct j; try reflexivity. discriminate. Qed.

Lemma contains_not_object j key : is_object j = false -> contains j key = false.
Proof. intros H. destruct j; try reflexivity. discriminate. Qed.

(** X5: [Lens::parse] and [Tracker::parse] do not test the kind of their
    sections.  A lens (tracker) member that is not an object, in a document
    without static.lens (static.tracker), gives a present entity with every
    field absent and no error. *)
Theorem flat_section_is_empty_entity (doc : json) (errors : Errors) :
  (forall v, find doc "lens" = Some v -> is_object v = false ->
     find2 doc "static" "lens" = None ->
     Lens.parse doc errors = (Some Lens.empty, errors))
  /\ (forall v, find doc "tracker" = Some v -> is_object v = false ->
        find2 doc "static" "tracker" = None ->
        Tracker.parse doc errors = (Some Tracker.empty, errors)).
Proof.
  split; intros v Hv Hk Hs.
  - assert (Hg : contains doc "static" && contains (doc @ "static") "lens" = false).
    { rewrite <- (negb_involutive (_ && _)), negb_andb, guard_find2, Hs. reflexivity. }
    unfold Lens.parse, Lens.parseStaticFields, Lens.parseStandardFields.
    rewrite Hg, (contains_find _ _ Hv), (at_key_find _ _ Hv). cbn [negb andb].
    unfold Lens.parseCustom, Lens.parseDistortion, Lens.parseDistortionShift,
      Lens.parseEntrancePupilOffset, Lens.parseExposureFalloff,
      Lens.parsePerspectiveShift, Lens.parseUndistortion.
    rewrite !contains_not_object by exact Hk. unfold bind, ret. cbn [andb].
    repeat (rewrite assignField_not_object by exact Hk; unfold ret; cbn [andb]).
    reflexivity.
  - assert (Hg : contains doc "static" && contains (doc @ "static") "tracker" = false).
    { rewrite <- (negb_involutive (_ && _)), negb_andb, guard_find2, Hs. reflexivity. }
    unfold Tracker.parse, Tracker.parseStaticFields, Tracker.parseStandardFields.
    rewrite Hg, (contains_find _ _ Hv), (at_key_find _ _ Hv). cbn [negb andb].
    unfold bind, ret. cbn [andb].
    repeat (rewrite assignField_not_object by exact Hk; unfold ret; cbn [andb]).
    reflexivity.
Qed.

(** *** SampleId and StreamId *)

Lemma SampleId_parse_member doc v errors :
  find doc "sampleId" = Some v ->
  SampleId.parse doc errors
  = match v with
    | JString s =>
        if Regex.regex_match s uuid_pattern
        then (Some {| SampleId.id := s |}, errors)
        else (None, errors ++ ["field: sampleId doesn't match required pattern"])
    | _ => (None, errors ++ ["field: sampleId isn't of type: string"])
    end.
Proof.
  intros Hv. unfold SampleId.parse. rewrite (contains_find _ _ Hv). cbn [negb].
  unfold bind. rewrite assignRegexField_run, Hv.
  destruct v; try reflexivity. destruct (Regex.regex_match s uuid_pattern); reflexivity.
Qed.

Lemma StreamId_parse_member doc v errors :
  find doc "streamId" = Some v ->
  StreamId.parse doc errors
  = match v with
    | JString s =>
        if Regex.regex_match s uuid_pattern
        then (Some {| StreamId.id := s |}, errors)
        else (None, errors ++ ["field: streamId doesn't match required pattern"])
    | _ => (None, errors ++ ["field: streamId isn't of type: string"])
    end.
Proof.
  intros Hv. unfold StreamId.parse. rewrite (contains_find _ _ Hv). cbn [negb].
  unfold bind. rewrite assignRegexField_run, Hv.
  destruct v; try reflexivity. destruct (Regex.regex_match s uuid_pattern); reflexivity.
Qed.

(** X6: when the document has sampleId (streamId), the decoder returns a
    present id, equal to the member and with no error, if the member is a
    string matching the urn:uuid pattern; otherwise it returns absent and
    appends exactly one error. *)
Theorem SampleId_StreamId_outcome (doc : json) (errors : Errors) :
  (forall v, find doc "sampleId" = Some v ->
     if valid_pattern_string uuid_pattern (Some v)
     then exists s, v = JString s
                    /\ SampleId.parse doc errors = (Some {| SampleId.id := s |}, errors)
     else exists msg, SampleId.parse doc errors = (None, errors ++ [msg]))
  /\ (forall v, find doc "streamId" = Some v ->
        if valid_pattern_string uuid_pattern (Some v)
        then exists s, v = JString s
                       /\ StreamId.parse doc errors = (Some {| StreamId.id := s |}, errors)
        else exists msg, StreamId.parse doc errors = (None, errors ++ [msg])).
Proof.
  split; intros v Hv.
  - rewrite (SampleId_parse_member _ errors Hv).
    destruct v; cbn [valid_pattern_string]; try (eexists; reflexivity).
    destruct (Regex.regex_match s uuid_pattern); eexists; eauto.
  - rewrite (StreamId_parse_member _ errors Hv).
    destruct v; cbn [valid_pattern_string]; try (eexists; reflexivity).
    destruct (Regex.regex_match s uuid_pattern); eexists; eauto.
Qed.

(** *** Transforms *)

Lemma Transforms_loop items : forall transforms errors,
  Transforms.loop items transforms errors
  = (transforms
     ++ flat_map (fun item => match fst (Transform_parse item) with
                              | Some tf => [tf]
                              | None => []
                              end) items,
     errors ++ flat_map (fun item => snd (Transform_parse item)) items).
Proof.
  induction items as [| item rest IH]; intros transforms errors;
    cbn [Transforms.loop flat_map].
  - unfold ret. now rewrite !app_nil_r.
  - unfold bind, call. destruct (fst (Transform_parse item)) as [tf|];
      rewrite IH, <- !app_assoc; reflexivity.
Qed.

(** X7: when transforms holds an array, [Transforms::parse] always returns
    a present sequence: the transforms the element parser accepts, in
    document order, the elements it rejects being skipped; the errors
    appended are those of the element parser, element after element. *)
Theorem Transforms_keeps_accepted_elements (doc : json) (items : list json)
    (errors : Errors) :
  find doc "transforms" = Some (JArray items) ->
  Transforms.parse doc errors
  = (Some {| Transforms.transforms :=
               flat_map (fun item => match fst (Transform_parse item) with
                                     | Some tf => [tf]
                                     | None => []
                                     end) items |},
     errors ++ flat_map (fun item => snd (Transform_parse item)) items).
Proof.
  intros H. unfold Transforms.parse.
  rewrite (contains_find _ _ H), (at_key_find _ _ H). cbn [negb].
  unfold bind. rewrite Transforms_loop. reflexivity.
Qed.

(** *** Duration *)

(** X8: when static.duration is an object, [Duration::parse] returns
    absent whatever num and denom hold, and the last error it appends is the
    missing-required-fields error. *)
Theorem Duration_object_is_rejected (doc durationJson : json) (errors : Errors) :
  find2 doc "static" "duration" = Some durationJson ->
  is_object durationJson = true ->
  exists before,
    Duration.parse doc errors
    = (None, errors ++ before ++ ["field: duration is missing required fields"]).
Proof.
  intros Hd Hobj. unfold Duration.parse.
  rewrite guard_find2, Hd, (at_key_find2 _ _ _ Hd), Hobj. cbn [negb]. cbv zeta.
  rewrite !bind_run by solve_appends.
  exists (snd (assignField checkTypeAndSetField_uint32 durationJson "num" None "uint32" [])
          ++ snd (assignField checkTypeAndSetField_uint32 durationJson "denom"
                    (fst (assignField checkTypeAndSetField_uint32 durationJson "num"
                            None "uint32" [])) "uint32" [])).
  destruct (fst (assignField _ _ "denom" _ _ _));
    unfold bind, emplace_back, ret; now rewrite <- !app_assoc.
Qed.

(** *** The required fields of Synchronization *)

Lemma Timing_parseNonRequired_present json frequency locked source errors :
  exists sync appended,
    Timing.parseNonRequired json frequency locked source errors
    = (Some sync, errors ++ appended)
    /\ Timing.frequency sync = frequency
    /\ Timing.locked sync = locked
    /\ Timing.source sync = source.
Proof.
  unfold Timing.parseNonRequired.
  rewrite bind_run by apply appends_Timing_parseOffsets.
  rewrite bind_run by solve_appends.
  rewrite bind_run by apply appends_Timing_parsePtp.
  unfold ret. rewrite <- !app_assoc. eexists _, _. repeat split.
Qed.

(** X10: a Synchronization is returned only from a section whose frequency
    the rational parser accepts, whose locked is a boolean and whose source
    is one of the four source names; the entity holds that frequency, that
    boolean and the source so named. *)
Theorem Synchronization_required_fields (syncJson : json) (errors errors' : Errors)
    (sync : Timing.Synchronization) :
  Timing.parseSynchronization syncJson errors = (Some sync, errors') ->
  exists freqJson,
    find syncJson "frequency" = Some freqJson
    /\ fst (Rational_parse freqJson) = Some (Timing.frequency sync)
    /\ find syncJson "locked" = Some (JBool (Timing.locked sync))
    /\ find syncJson "source" = Some (JString (source_name (Timing.source sync))).
Proof.
  unfold Timing.parseSynchronization, contains, at_key. cbv zeta.
  destruct (find syncJson "frequency") as [freqJson|];
    [ | unfold bind, emplace_back, ret; discriminate ].
  destruct (find syncJson "locked") as [lockedJson|];
    [ | unfold bind, emplace_back, ret; discriminate ].
  destruct (find syncJson "source") as [sourceJson|];
    [ | unfold bind, emplace_back, ret; discriminate ].
  cbn [andb negb]. unfold bind at 1, call.
  destruct (fst (Rational_parse freqJson)) as [frequency|] eqn:Hfreq;
    [ | unfold bind, emplace_back, ret; discriminate ].
  destruct lockedJson; cbn [checkTypeAndSetField_bool];
    try (unfold bind, emplace_back, ret; discriminate).
  destruct sourceJson; cbn [checkTypeAndSetField_string];
    try (unfold bind, emplace_back, ret; discriminate).
  intros H. exists freqJson.
  repeat match type of H with
         | (if String.eqb s ?lit then _ else _) _ = _ =>
             destruct (String.eqb_spec s lit) as [-> | _]
         end;
    [ .. | unfold bind, emplace_back, ret in H; discriminate ];
    match type of H with
    | Timing.parseNonRequired _ ?f ?l ?src ?e = _ =>
        destruct (Timing_parseNonRequired_present syncJson f l src e)
          as (sync' & appended & Hp & <- & <- & Hsrc);
        rewrite Hp in H; injection H as <- _; rewrite Hsrc; repeat split; assumption
    end.
Qed.

(** X11: a section whose frequency the rational parser accepts, whose
    locked is a boolean and whose source is one of "genlock", "videoIn", "ptp"
    and "ntp" is decoded to a present Synchronization with that frequency,
    that boolean and the source so named; the errors of the rational parser
    come first among those appended. *)
Theorem Synchronization_with_required_fields (syncJson freqJson : json)
    (frequency : Rational) (freqErrors : list string) (locked : bool)
    (source : Timing.SourceType) (errors : Errors) :
  find syncJson "frequency" = Some freqJson ->
  Rational_parse freqJson = (Some frequency, freqErrors) ->
  find syncJson "locked" = Some (JBool locked) ->
  find syncJson "source" = Some (JString (source_name source)) ->
  exists sync appended,
    Timing.parseSynchronization syncJson errors
    = (Some sync, errors ++ freqErrors ++ appended)
    /\ Timing.frequency sync = frequency
    /\ Timing.locked sync = locked
    /\ Timing.source sync = source.
Proof.
  intros Hf Hr Hl Hs. unfold Timing.parseSynchronization.
  rewrite (contains_find _ _ Hf), (contains_find _ _ Hl), (contains_find _ _ Hs),
    (at_key_find _ _ Hf), (at_key_find _ _ Hl), (at_key_find _ _ Hs).
  cbn [andb negb]. unfold bind at 1, call. rewrite Hr. cbn [fst snd].
  cbn [checkTypeAndSetField_bool checkTypeAndSetField_string].
  destruct (Timing_parseNonRequired_present syncJson frequency locked source
              (errors ++ freqErrors)) as (sync & appended & Hp & H1 & H2 & H3).
  exists sync, appended. rewrite app_assoc, <- Hp.
  split; [ | now repeat split ].
  destruct source; reflexivity.
Qed.

(** X12: a section whose frequency the rational parser accepts and whose
    locked is a boolean, but whose source is a string other than the four
    source names, is rejected as a whole: the result is absent and the last
    error appended is the enumeration error. *)
Theorem Synchronization_unknown_source (syncJson freqJson : json)
    (frequency : Rational) (freqErrors : list string) (locked : bool)
    (s : string) (errors : Errors) :
  find syncJson "frequency" = Some freqJson ->
  Rational_parse freqJson = (Some frequency, freqErrors) ->
  find syncJson "locked" = Some (JBool locked) ->
  find syncJson "source" = Some (JString s) ->
  (forall source, s <> source_name source) ->
  Timing.parseSynchronization syncJson errors
  = (None,
     errors ++ freqErrors
     ++ ["field: timing/synchronization/source isn't a valid enumeration"]).
Proof.
  intros Hf Hr Hl Hs Hnone. unfold Timing.parseSynchronization.
  rewrite (contains_find _ _ Hf), (contains_find _ _ Hl), (contains_find _ _ Hs),
    (at_key_find _ _ Hf), (at_key_find _ _ Hl), (at_key_find _ _ Hs).
  cbn [andb negb]. unfold bind at 1, call. rewrite Hr. cbn [fst snd].
  cbn [checkTypeAndSetField_bool checkTypeAndSetField_string].
  destruct (String.eqb_spec s "genlock") as [E|_]; [ now destruct (Hnone Timing.GEN_LOCK) | ].
  destruct (String.eqb_spec s "videoIn") as [E|_]; [ now destruct (Hnone Timing.VIDEO_IN) | ].
  destruct (String.eqb_spec s "ptp") as [E|_]; [ now destruct (Hnone Timing.PTP) | ].
  destruct (String.eqb_spec s "ntp") as [E|_]; [ now destruct (Hnone Timing.NTP) | ].
  unfold bind, emplace_back, ret. now rewrite <- app_assoc.
Qed.

(** *** Camera.shutterAngle *)

Lemma appends_Camera_checkShutterAngle shutterAngle :
  appends (Camera.checkShutterAngle shutterAngle).
Proof. unfold Camera.checkShutterAngle. solve_appends. Qed.

(** The shutter angle of a decoded Camera and the last errors appended are
    those of lines 67-73, run on their own. *)
Lemma Camera_parse_object (doc cameraJson : json) (errors : Errors) :
  find2 doc "static" "camera" = Some cameraJson ->
  is_object cameraJson = true ->
  let assigned :=
    assignField checkTypeAndSetField_integer cameraJson "shutterAngle" None "integer" [] in
  let checked := Camera.checkShutterAngle (fst assigned) [] in
  exists cam before,
    Camera.parse doc errors
    = (Some cam, errors ++ before ++ snd assigned ++ snd checked)
    /\ Camera.shutterAngle cam = fst checked.
Proof.
  intros Hc Hobj assigned checked.
  remember (Camera.parse doc errors) as L eqn:HL. unfold Camera.parse in HL.
  rewrite guard_find2, Hc, (at_key_find2 _ _ _ Hc), Hobj in HL.
  cbn [negb] in HL. cbv zeta in HL.
  do 11 run_step HL.
  match type of HL with
  | _ = bind _ _ (errors ++ ?acc) => set (before := acc) in *
  end.
  unfold bind at 1 in HL.
  rewrite (appends_run (appends_assignField checkTypeAndSetField_integer cameraJson
                          "shutterAngle" None "integer")) in HL.
  unfold bind at 1 in HL.
  rewrite (appends_run (appends_Camera_checkShutterAngle _)) in HL.
  unfold ret in HL. rewrite <- !app_assoc in HL. subst L.
  eexists _, before. split; reflexivity.
Qed.

Lemma Camera_checkShutterAngle_value shutterAngle errors v :
  fst (Camera.checkShutterAngle shutterAngle errors) = Some v ->
  shutterAngle = Some v /\ v <= 360000.
Proof.
  unfold Camera.checkShutterAngle. destruct shutterAngle as [value|]; [ | discriminate ].
  destruct (Z.gtb_spec value 360000); [ discriminate | ].
  cbn. intros [= ->]. split; [ reflexivity | lia ].
Qed.

(** X13: the shutter angle of a decoded Camera, when present, is the
    integer static.camera.shutterAngle of the document and is at most
    360000. *)
Theorem Camera_shutterAngle_kept (doc : json) (errors errors' : Errors)
    (cam : Camera.t) (v : Z) :
  Camera.parse doc errors = (Some cam, errors') ->
  Camera.shutterAngle cam = Some v ->
  find3 doc "static" "camera" "shutterAngle" = Some (JInt v) /\ v <= 360000.
Proof.
  intros Hp Hv. unfold find3.
  destruct (find2 doc "static" "camera") as [cameraJson|] eqn:Hc.
  - destruct (is_object cameraJson) eqn:Hobj.
    + destruct (Camera_parse_object doc errors Hc Hobj) as (cam' & before & Hp' & Hs).
      rewrite Hp in Hp'. injection Hp' as <- _. rewrite Hv in Hs. symmetry in Hs.
      apply Camera_checkShutterAngle_value in Hs as [Ha Hle].
      split; [ | exact Hle ].
      rewrite assignField_run in Ha.
      destruct (find cameraJson "shutterAngle") as [j|]; [ | discriminate ].
      destruct j; try discriminate. cbn in Ha. now injection Ha as ->.
    + unfold Camera.parse in Hp.
      rewrite guard_find2, Hc, (at_key_find2 _ _ _ Hc), Hobj in Hp. discriminate.
  - unfold Camera.parse in Hp. rewrite guard_find2, Hc in Hp. discriminate.
Qed.

(** X14: when static.camera is an object whose shutterAngle is an integer
    above 360000, [Camera::parse] returns a present Camera without shutter
    angle, and the last error it appends is the range error. *)
Theorem Camera_shutterAngle_above_range (doc cameraJson : json) (v : Z)
    (errors : Errors) :
  find2 doc "static" "camera" = Some cameraJson ->
  find cameraJson "shutterAngle" = Some (JInt v) ->
  360000 < v ->
  exists cam before,
    Camera.parse doc errors
    = (Some cam,
       errors ++ before
       ++ ["field: shutterAngle is outside the expected range 1 - 360000."])
    /\ Camera.shutterAngle cam = None.
Proof.
  intros Hc Hv Hlt.
  assert (Hobj : is_object cameraJson = true) by (destruct cameraJson; auto; discriminate).
  destruct (Camera_parse_object doc errors Hc Hobj) as (cam & before & Hp & Hs).
  rewrite assignField_run, Hv in Hp, Hs.
  cbn [checkTypeAndSetField_integer fst snd] in Hp, Hs.
  rewrite (Camera_checkShutterAngle_above [] Hlt) in Hp, Hs.
  exists cam, before. split; assumption.
Qed.

(** *** Strings kept under a pattern *)

Lemma assignRegexField_kept j fieldStr pattern errors s :
  fst (assignRegexField j fieldStr None pattern errors) = Some s ->
  Regex.regex_match s pattern = true.
Proof.
  rewrite assignRegexField_run.
  destruct (find j fieldStr) as [v|]; [ | discriminate ].
  destruct v; try discriminate.
  destruct (Regex.regex_match s0 pattern) eqn:Hm; [ | discriminate ].
  now intros [= <-].
Qed.

Lemma Camera_parse_fdlLink (doc : json) (errors errors' : Errors) (cam : Camera.t) :
  Camera.parse doc errors = (Some cam, errors') ->
  Camera.fdlLink cam
  = fst (assignRegexField (doc @ "static" @ "camera") "fdlLink" None uuid_pattern []).
Proof.
  intros Hp. symmetry in Hp. unfold Camera.parse in Hp.
  destruct (negb (contains doc "static") || negb (contains (doc @ "static") "camera"));
    [ discriminate | ].
  destruct (negb (is_object (doc @ "static" @ "camera"))); [ discriminate | ].
  cbv zeta in Hp. do 9 run_step Hp.
  unfold bind at 1 in Hp. rewrite (appends_run (appends_assignRegexField _ _ _ _)) in Hp.
  pose proof appends_Camera_checkShutterAngle.
  do 3 run_step Hp. unfold ret in Hp. now injection Hp as -> _.
Qed.

Lemma valid_samples_match items :
  Forall (fun s => Regex.regex_match s uuid_pattern = true) (valid_samples items).
Proof.
  induction items as [| item rest IH]; [ constructor | ].
  destruct item; cbn [valid_samples]; auto.
  destruct (Regex.regex_match s uuid_pattern) eqn:Hm; auto.
Qed.

(** X15: every string a decoder keeps under a pattern matches it: the
    fdlLink of a Camera, the ids of SampleId and StreamId and every sample of
    RelatedSampleIds match the urn:uuid pattern, the version of a Protocol
    matches the version pattern and the master of a Ptp group matches the
    MAC-address pattern. *)
Theorem kept_strings_match_patterns (doc syncJson : json) (errors errors' : Errors) :
  (forall cam s, Camera.parse doc errors = (Some cam, errors') ->
     Camera.fdlLink cam = Some s -> Regex.regex_match s uuid_pattern = true)
  /\ (forall sid, SampleId.parse doc errors = (Some sid, errors') ->
        Regex.regex_match (SampleId.id sid) uuid_pattern = true)
  /\ (forall sid, StreamId.parse doc errors = (Some sid, errors') ->
        Regex.regex_match (StreamId.id sid) uuid_pattern = true)
  /\ (forall rs, RelatedSampleIds.parse doc errors = (Some rs, errors') ->
        Forall (fun s => Regex.regex_match s uuid_pattern = true)
          (RelatedSampleIds.samples rs))
  /\ (forall pro, Protocol.parse doc errors = Some (Some pro, errors') ->
        Regex.regex_match (Protocol.version pro) version_pattern = true)
  /\ (forall sync ptp s,
        Timing.parseSynchronization syncJson errors = (Some sync, errors') ->
        Timing.ptp sync = Some ptp -> Timing.master ptp = Some s ->
        Regex.regex_match s mac_pattern = true).
Proof.
  repeat apply conj.
  - intros cam s Hp Hs. erewrite Camera_parse_fdlLink in Hs by exact Hp.
    eapply assignRegexField_kept. exact Hs.
  - intros sid. unfold SampleId.parse, contains.
    destruct (find doc "sampleId") as [v|] eqn:Hv; [ | discriminate ].
    cbn [negb]. unfold bind. rewrite assignRegexField_run, Hv.
    destruct v; try discriminate.
    destruct (Regex.regex_match s uuid_pattern) eqn:Hm; [ | discriminate ].
    now intros [= <- _].
  - intros sid. unfold StreamId.parse, contains.
    destruct (find doc "streamId") as [v|] eqn:Hv; [ | discriminate ].
    cbn [negb]. unfold bind. rewrite assignRegexField_run, Hv.
    destruct v; try discriminate.
    destruct (Regex.regex_match s uuid_pattern) eqn:Hm; [ | discriminate ].
    now intros [= <- _].
  - intros rs. unfold RelatedSampleIds.parse.
    destruct (negb (contains doc "relatedSampleIds")); [ discriminate | ].
    destruct (doc @ "relatedSampleIds"); try discriminate.
    unfold bind. rewrite RelatedSampleIds_loop. unfold ret. intros [= <- _].
    apply valid_samples_match.
  - intros pro. unfold Protocol.parse.
    destruct (negb (contains doc "protocol")); [ discriminate | ].
    destruct (find (doc @ "protocol") "name") as [nameJson|]; [ | discriminate ].
    destruct (checkTypeAndSetField_string nameJson) as [name|]; [ | discriminate ].
    unfold bind. rewrite assignRegexField_run.
    destruct (find (doc @ "protocol") "version") as [v|]; [ | discriminate ].
    destruct v; try discriminate.
    destruct (Regex.regex_match s version_pattern) eqn:Hm; [ | discriminate ].
    now intros [= <- _].
  - intros sync ptp s Hp Hptp Hm.
    destruct (Timing_parseSynchronization_groups _ _ Hp) as [_ Hg].
    rewrite Hptp in Hg. unfold Timing.parsePtp in Hg.
    destruct (contains syncJson "ptp"); [ | discriminate ].
    rewrite !bind_run in Hg by solve_appends.
    match type of Hg with
    | context [if ?c then _ else _] => destruct c; [ discriminate | ]
    end.
    unfold ret in Hg. injection Hg as ->. cbn [Timing.master] in Hm.
    eapply assignRegexField_kept. exact Hm.
Qed.

(** *** Tracker, field by field *)

Lemma guard2_true j a b v :
  find2 j a b = Some v -> contains j a && contains (j @ a) b = true.
Proof.
  intros H. rewrite <- (negb_involutive (_ && _)), negb_andb, guard_find2, H. reflexivity.
Qed.

Lemma guard2_false j a b :
  find2 j a b = None -> contains j a && contains (j @ a) b = false.
Proof.
  intros H. rewrite <- (negb_involutive (_ && _)), negb_andb, guard_find2, H. reflexivity.
Qed.

Lemma assignField_string_run j fieldStr errors :
  assignField checkTypeAndSetField_string j fieldStr None "string" errors
  = (string_at (Some j) fieldStr, errors ++ type_error is_string (Some j) fieldStr "string").
Proof.
  rewrite assignField_run. unfold string_at, type_error, mistyped.
  destruct (find j fieldStr) as [v|]; [ destruct v | ]; cbn; now rewrite ?app_nil_r.
Qed.

Lemma assignField_boolean_run j fieldStr typeStr errors :
  assignField checkTypeAndSetField_bool j fieldStr None typeStr errors
  = (bool_at (Some j) fieldStr, errors ++ type_error is_boolean (Some j) fieldStr typeStr).
Proof.
  rewrite assignField_run. unfold bool_at, type_error, mistyped.
  destruct (find j fieldStr) as [v|]; [ destruct v | ]; cbn; now rewrite ?app_nil_r.
Qed.

Lemma Tracker_parseStaticFields_run doc errors :
  let section := find2 doc "static" "tracker" in
  Tracker.parseStaticFields doc Tracker.empty errors
  = ({| Tracker.firmwareVersion := string_at section "firmwareVersion";
        Tracker.make := string_at section "make";
        Tracker.model := string_at section "model";
        Tracker.serialNumber := string_at section "serialNumber";
        Tracker.notes := None; Tracker.recording := None;
        Tracker.slate := None; Tracker.status := None |},
     errors
     ++ type_error is_string section "firmwareVersion" "string"
     ++ type_error is_string section "make" "string"
     ++ type_error is_string section "model" "string"
     ++ type_error is_string section "serialNumber" "string").
Proof.
  cbv zeta. unfold Tracker.parseStaticFields.
  destruct (find2 doc "static" "tracker") as [j|] eqn:Hs.
  - rewrite (guard2_true _ _ _ Hs), (at_key_find2 _ _ _ Hs). cbv zeta.
    cbn [Tracker.empty Tracker.firmwareVersion Tracker.make Tracker.model
         Tracker.serialNumber Tracker.notes Tracker.recording Tracker.slate
         Tracker.status].
    unfold bind. rewrite !assignField_string_run. unfold ret.
    now rewrite <- !app_assoc.
  - rewrite (guard2_false _ _ _ Hs). unfold ret. cbn. now rewrite app_nil_r.
Qed.

Lemma Tracker_parseStandardFields_run doc tkr errors :
  Tracker.notes tkr = None -> Tracker.recording tkr = None ->
  Tracker.slate tkr = None -> Tracker.status tkr = None ->
  let section := find doc "tracker" in
  Tracker.parseStandardFields doc tkr errors
  = ({| Tracker.firmwareVersion := Tracker.firmwareVersion tkr;
        Tracker.make := Tracker.make tkr;
        Tracker.model := Tracker.model tkr;
        Tracker.serialNumber := Tracker.serialNumber tkr;
        Tracker.notes := string_at section "notes";
        Tracker.recording := bool_at section "recording";
        Tracker.slate := string_at section "slate";
        Tracker.status := string_at section "status" |},
     errors
     ++ type_error is_string section "notes" "string"
     ++ type_error is_boolean section "recording" "boolean"
     ++ type_error is_string section "slate" "string"
     ++ type_error is_string section "status" "string").
Proof.
  intros Hn Hr Hsl Hst. cbv zeta. unfold Tracker.parseStandardFields.
  destruct (find doc "tracker") as [j|] eqn:Hs.
  - rewrite (contains_find _ _ Hs), (at_key_find _ _ Hs). cbv zeta.
    rewrite Hn, Hr, Hsl, Hst.
    unfold bind.
    rewrite !assignField_string_run, assignField_boolean_run, !assignField_string_run.
    unfold ret. now rewrite <- !app_assoc.
  - rewrite (contains_find_None _ _ Hs). unfold ret. destruct tkr; cbn in *.
    subst. now rewrite app_nil_r.
Qed.

(** X16: a decoded Tracker holds, field by field, the members of the
    document that are of the expected kind: firmwareVersion, make, model and
    serialNumber are the strings of static.tracker, notes, slate and status
    the strings of tracker and recording its boolean; a member that is
    missing or of another kind leaves its field absent.  One error is
    appended for each of the eight members that is present and of another
    kind, and no other error. *)
Theorem Tracker_parse_fields (doc : json) (errors errors' : Errors) (tkr : Tracker.t) :
  Tracker.parse doc errors = (Some tkr, errors') ->
  let static := find2 doc "static" "tracker" in
  let standard := find doc "tracker" in
  Tracker.firmwareVersion tkr = string_at static "firmwareVersion"
  /\ Tracker.make tkr = string_at static "make"
  /\ Tracker.model tkr = string_at static "model"
  /\ Tracker.serialNumber tkr = string_at static "serialNumber"
  /\ Tracker.notes tkr = string_at standard "notes"
  /\ Tracker.recording tkr = bool_at standard "recording"
  /\ Tracker.slate tkr = string_at standard "slate"
  /\ Tracker.status tkr = string_at standard "status"
  /\ exists appended,
       errors' = errors ++ appended
       /\ List.length appended
          = count_true [mistyped is_string static "firmwareVersion";
                        mistyped is_string static "make";
                        mistyped is_string static "model";
                        mistyped is_string static "serialNumber";
                        mistyped is_string standard "notes";
                        mistyped is_boolean standard "recording";
                        mistyped is_string standard "slate";
                        mistyped is_string standard "status"].
Proof.
  unfold Tracker.parse.
  destruct (negb (contains doc "tracker")
            && (negb (contains doc "static") || negb (contains (doc @ "static") "tracker")));
    [ discriminate | ].
  unfold bind at 1. rewrite Tracker_parseStaticFields_run.
  unfold bind at 1. rewrite Tracker_parseStandardFields_run by reflexivity.
  unfold ret. intros [= <- <-]. cbv zeta. repeat (split; [ reflexivity | ]).
  eexists. split; [ rewrite <- !app_assoc; reflexivity | ].
  unfold type_error.
  destruct (mistyped is_string (find2 doc "static" "tracker") "firmwareVersion"),
    (mistyped is_string (find2 doc "static" "tracker") "make"),
    (mistyped is_string (find2 doc "static" "tracker") "model"),
    (mistyped is_string (find2 doc "static" "tracker") "serialNumber"),
    (mistyped is_string (find doc "tracker") "notes"),
    (mistyped is_boolean (find doc "tracker") "recording"),
    (mistyped is_string (find doc "tracker") "slate"),
    (mistyped is_string (find doc "tracker") "status"); reflexivity.
Qed.

(** *** Lens: static fields, groups and custom *)

Lemma assignField_double_value j fieldStr typeStr errors :
  fst (assignField checkTypeAndSetField_double j fieldStr None typeStr errors)
  = number_at (Some j) fieldStr.
Proof.
  rewrite assignField_run. unfold number_at.
  destruct (find j fieldStr) as [v|]; [ destruct v | ]; reflexivity.
Qed.

Lemma Lens_parseStaticFields_value doc errors :
  let section := find2 doc "static" "lens" in
  let lens := fst (Lens.parseStaticFields doc Lens.empty errors) in
  Lens.firmwareVersion lens = string_at section "firmwareVersion"
  /\ Lens.make lens = string_at section "make"
  /\ Lens.model lens = string_at section "model"
  /\ Lens.nominalFocalLength lens = number_at section "nominalFocalLength"
  /\ Lens.serialNumber lens = string_at section "serialNumber"
  /\ Lens.custom lens = None
  /\ Lens.distortionShift lens = None
  /\ Lens.entrancePupilOffset lens = None
  /\ Lens.exposureFalloff lens = None
  /\ Lens.perspectiveShift lens = None.
Proof.
  cbv zeta. unfold Lens.parseStaticFields.
  destruct (find2 doc "static" "lens") as [j|] eqn:Hs.
  - rewrite (guard2_true _ _ _ Hs), (at_key_find2 _ _ _ Hs). cbv zeta.
    rewrite !bind_run by solve_appends. unfold ret.
    cbn [fst Lens.empty Lens.firmwareVersion Lens.make Lens.model
         Lens.nominalFocalLength Lens.serialNumber Lens.custom Lens.distortionShift
         Lens.entrancePupilOffset Lens.exposureFalloff Lens.perspectiveShift].
    rewrite !assignField_string_run, assignField_double_value. repeat split.
  - rewrite (guard2_false _ _ _ Hs). repeat split.
Qed.

Lemma Lens_parseStandardFields_value doc lens errors :
  let lens' := fst (Lens.parseStandardFields doc lens errors) in
  let section := doc @ "lens" in
  (Lens.firmwareVersion lens' = Lens.firmwareVersion lens
   /\ Lens.make lens' = Lens.make lens
   /\ Lens.model lens' = Lens.model lens
   /\ Lens.nominalFocalLength lens' = Lens.nominalFocalLength lens
   /\ Lens.serialNumber lens' = Lens.serialNumber lens)
  /\ (contains doc "lens" = true ->
      Lens.custom lens' = fst (Lens.parseCustom section (Lens.custom lens) [])
      /\ Lens.distortionShift lens'
         = fst (Lens.parseDistortionShift section (Lens.distortionShift lens) [])
      /\ Lens.entrancePupilOffset lens'
         = fst (Lens.parseEntrancePupilOffset section (Lens.entrancePupilOffset lens) [])
      /\ Lens.exposureFalloff lens'
         = fst (Lens.parseExposureFalloff section (Lens.exposureFalloff lens) [])
      /\ Lens.perspectiveShift lens'
         = fst (Lens.parsePerspectiveShift section (Lens.perspectiveShift lens) []))
  /\ (contains doc "lens" = false -> lens' = lens).
Proof.
  cbv zeta. unfold Lens.parseStandardFields.
  destruct (contains doc "lens").
  - cbv zeta.
    assert (H1 : forall c, appends (Lens.parseCustom (doc @ "lens") c))
      by (intros c; unfold Lens.parseCustom; solve_appends).
    assert (H2 : forall c, appends (Lens.parseDistortion (doc @ "lens") c))
      by (intros c; unfold Lens.parseDistortion; solve_appends).
    assert (H3 : forall c, appends (Lens.parseDistortionShift (doc @ "lens") c))
      by (intros c; unfold Lens.parseDistortionShift; solve_appends).
    assert (H4 : forall c, appends (Lens.parseEntrancePupilOffset (doc @ "lens") c))
      by (intros c; unfold Lens.parseEntrancePupilOffset; solve_appends).
    assert (H5 : forall c, appends (Lens.parseExposureFalloff (doc @ "lens") c))
      by (intros c; unfold Lens.parseExposureFalloff; solve_appends).
    assert (H6 : forall c, appends (Lens.parsePerspectiveShift (doc @ "lens") c))
      by (intros c; unfold Lens.parsePerspectiveShift; solve_appends).
    assert (H7 : forall c, appends (Lens.parseUndistortion (doc @ "lens") c))
      by (intros c; unfold Lens.parseUndistortion; solve_appends).
    rewrite !bind_run by solve_appends. unfold ret. cbn [fst].
    split; [ repeat split | ]. split; [ intros _; repeat split | discriminate ].
  - split; [ repeat split | ]. split; [ discriminate | reflexivity ].
Qed.

(** The Lens returned is the one the two blocks build from the empty one. *)
Lemma Lens_parse_value (doc : json) (errors errors' : Errors) (lens : Lens.t) :
  Lens.parse doc errors = (Some lens, errors') ->
  lens = fst (Lens.parseStandardFields doc
                (fst (Lens.parseStaticFields doc Lens.empty [])) []).
Proof.
  unfold Lens.parse.
  destruct (negb (contains doc "lens")
            && (negb (contains doc "static") || negb (contains (doc @ "static") "lens")));
    [ discriminate | ].
  rewrite bind_run by apply appends_Lens_parseStaticFields.
  rewrite bind_run by apply appends_Lens_parseStandardFields.
  unfold ret. now intros [= <- _].
Qed.

(** X17: the static fields of a decoded Lens are read from static.lens and
    from nowhere else: firmwareVersion, make, model and serialNumber are its
    strings and nominalFocalLength the double its number is read as (an
    integer member being converted to the nearest double), each absent when
    the member is missing or of another kind, whatever the lens section
    holds. *)
Theorem Lens_static_fields (doc : json) (errors errors' : Errors) (lens : Lens.t) :
  Lens.parse doc errors = (Some lens, errors') ->
  let static := find2 doc "static" "lens" in
  Lens.firmwareVersion lens = string_at static "firmwareVersion"
  /\ Lens.make lens = string_at static "make"
  /\ Lens.model lens = string_at static "model"
  /\ Lens.nominalFocalLength lens = number_at static "nominalFocalLength"
  /\ Lens.serialNumber lens = string_at static "serialNumber".
Proof.
  intros Hp. apply Lens_parse_value in Hp. subst lens. cbv zeta.
  destruct (Lens_parseStandardFields_value doc
              (fst (Lens.parseStaticFields doc Lens.empty [])) [])
    as ((-> & -> & -> & -> & ->) & _).
  destruct (Lens_parseStaticFields_value doc []) as (-> & -> & -> & -> & -> & _).
  repeat split.
Qed.

Lemma populate_numbers items : forall vec,
  forallb is_number items = true -> populate items vec = (true, vec ++ numbers items).
Proof.
  induction items as [| item rest IH]; intros vec H.
  - cbn. now rewrite app_nil_r.
  - cbn [forallb] in H. apply andb_prop in H as [Hi Hr].
    destruct item; try discriminate; cbn [populate checkTypeAndSetField_double];
      rewrite (IH _ Hr), <- app_assoc; reflexivity.
Qed.

Lemma Lens_parseCustom_value lensJson errors :
  fst (Lens.parseCustom lensJson None errors)
  = match find lensJson "custom" with
    | Some (JArray items) => if forallb is_number items then Some (numbers items) else None
    | _ => None
    end.
Proof.
  unfold Lens.parseCustom, contains, at_key.
  destruct (find lensJson "custom") as [v|]; [ | reflexivity ].
  destruct v; try reflexivity. cbn [is_array andb iterateJsonArrayAndPopulateVector].
  destruct (forallb is_number items) eqn:Hn.
  - now rewrite (populate_numbers _ [] Hn).
  - rewrite <- (populate_ok items []) in Hn.
    destruct (populate items []) as [ok vec]. cbn in Hn. now subst ok.
Qed.

Lemma Lens_parseDistortionShift_value lensJson errors :
  fst (Lens.parseDistortionShift lensJson None errors)
  = match number_at (find lensJson "distortionShift") "x",
          number_at (find lensJson "distortionShift") "y" with
    | Some x, Some y =>
        Some {| Lens.distortionShift_x := x; Lens.distortionShift_y := y |}
    | _, _ => None
    end.
Proof.
  unfold Lens.parseDistortionShift, contains, at_key.
  destruct (find lensJson "distortionShift") as [g|]; [ | reflexivity ].
  rewrite !bind_run by solve_appends. rewrite !assignField_double_value.
  destruct (number_at (Some g) "x"), (number_at (Some g) "y"); reflexivity.
Qed.

Lemma Lens_parsePerspectiveShift_value lensJson errors :
  fst (Lens.parsePerspectiveShift lensJson None errors)
  = match number_at (find lensJson "perspectiveShift") "x",
          number_at (find lensJson "perspectiveShift") "y" with
    | Some x, Some y =>
        Some {| Lens.perspectiveShift_x := x; Lens.perspectiveShift_y := y |}
    | _, _ => None
    end.
Proof.
  unfold Lens.parsePerspectiveShift, contains, at_key.
  destruct (find lensJson "perspectiveShift") as [g|]; [ | reflexivity ].
  rewrite !bind_run by solve_appends. rewrite !assignField_double_value.
  destruct (number_at (Some g) "x"), (number_at (Some g) "y"); reflexivity.
Qed.

Lemma assignField_int64_value j fieldStr typeStr errors :
  fst (assignField checkTypeAndSetField_int64 j fieldStr None typeStr errors)
  = int64_at (Some j) fieldStr.
Proof.
  rewrite assignField_run. unfold int64_at.
  destruct (find j fieldStr) as [v|]; [ | reflexivity ].
  destruct v; try reflexivity. unfold checkTypeAndSetField_int64, in_bounds.
  destruct ((-9223372036854775808 <=? z) && (z <=? 9223372036854775807)); reflexivity.
Qed.

Lemma Lens_parseEntrancePupilOffset_value lensJson errors :
  fst (Lens.parseEntrancePupilOffset lensJson None errors)
  = match int64_at (find lensJson "entrancePupilOffset") "num",
          int64_at (find lensJson "entrancePupilOffset") "denom" with
    | Some num, Some denom => Some {| Lens.numerator := num; Lens.denominator := denom |}
    | _, _ => None
    end.
Proof.
  unfold Lens.parseEntrancePupilOffset, contains, at_key.
  destruct (find lensJson "entrancePupilOffset") as [g|]; [ | reflexivity ].
  rewrite !bind_run by solve_appends. rewrite !assignField_int64_value.
  destruct (int64_at (Some g) "num"), (int64_at (Some g) "denom"); reflexivity.
Qed.

Lemma Lens_parseExposureFalloff_value lensJson errors :
  fst (Lens.parseExposureFalloff lensJson None errors)
  = match number_at (find lensJson "exposureFalloff") "a1" with
    | Some a1 =>
        Some {| Lens.a1 := a1;
                Lens.a2 := number_at (find lensJson "exposureFalloff") "a2";
                Lens.a3 := number_at (find lensJson "exposureFalloff") "a3" |}
    | None => None
    end.
Proof.
  unfold Lens.parseExposureFalloff, contains, at_key.
  destruct (find lensJson "exposureFalloff") as [g|]; [ | reflexivity ].
  rewrite !bind_run by solve_appends. rewrite !assignField_double_value.
  destruct (number_at (Some g) "a1"); reflexivity.
Qed.

(** X18: the groups of a decoded Lens other than distortion and
    undistortion.  distortionShift and perspectiveShift are present exactly
    when both x and y are numbers, entrancePupilOffset exactly when both num
    and denom are int64 integers, exposureFalloff exactly when a1 is a number
    (a2 and a3 being kept when they are numbers), and custom exactly when
    lens.custom is an array of numbers; a present group holds these values,
    every number as the double it is read as (an integer member being
    converted to the nearest double). *)
Theorem Lens_groups (doc : json) (errors errors' : Errors) (lens : Lens.t) :
  Lens.parse doc errors = (Some lens, errors') ->
  let group := find2 doc "lens" in
  Lens.custom lens
  = match group "custom" with
    | Some (JArray items) => if forallb is_number items then Some (numbers items) else None
    | _ => None
    end
  /\ Lens.distortionShift lens
     = match number_at (group "distortionShift") "x",
             number_at (group "distortionShift") "y" with
       | Some x, Some y =>
           Some {| Lens.distortionShift_x := x; Lens.distortionShift_y := y |}
       | _, _ => None
       end
  /\ Lens.entrancePupilOffset lens
     = match int64_at (group "entrancePupilOffset") "num",
             int64_at (group "entrancePupilOffset") "denom" with
       | Some num, Some denom =>
           Some {| Lens.numerator := num; Lens.denominator := denom |}
       | _, _ => None
       end
  /\ Lens.exposureFalloff lens
     = match number_at (group "exposureFalloff") "a1" with
       | Some a1 =>
           Some {| Lens.a1 := a1;
                   Lens.a2 := number_at (group "exposureFalloff") "a2";
                   Lens.a3 := number_at (group "exposureFalloff") "a3" |}
       | None => None
       end
  /\ Lens.perspectiveShift lens
     = match number_at (group "perspectiveShift") "x",
             number_at (group "perspectiveShift") "y" with
       | Some x, Some y =>
           Some {| Lens.perspectiveShift_x := x; Lens.perspectiveShift_y := y |}
       | _, _ => None
       end.
Proof.
  intros Hp. apply Lens_parse_value in Hp. subst lens. cbv zeta.
  destruct (Lens_parseStaticFields_value doc [])
    as (_ & _ & _ & _ & _ & Hc & Hd & He & Hx & Hs).
  destruct (Lens_parseStandardFields_value doc
              (fst (Lens.parseStaticFields doc Lens.empty [])) [])
    as (_ & Hyes & Hno).
  unfold find2. unfold contains, at_key in Hyes, Hno.
  destruct (find doc "lens") as [lensJson|].
  - destruct (Hyes eq_refl) as (-> & -> & -> & -> & ->).
    rewrite Hc, Hd, He, Hx, Hs.
    rewrite Lens_parseCustom_value, Lens_parseDistortionShift_value,
      Lens_parseEntrancePupilOffset_value, Lens_parseExposureFalloff_value,
      Lens_parsePerspectiveShift_value.
    repeat split.
  - rewrite (Hno eq_refl), Hc, Hd, He, Hx, Hs. repeat split.
Qed.

Lemma Lens_parseStaticFields_update doc f lens :
  Lens.parseStaticFields (update_member "lens" f doc) lens
  = Lens.parseStaticFields doc lens.
Proof.
  unfold Lens.parseStaticFields, contains, at_key.
  now rewrite find_update_member_ne by reflexivity.
Qed.

Lemma Lens_parseStandardFields_without_custom doc lensJson v lens :
  find doc "lens" = Some lensJson ->
  find lensJson "custom" = Some v ->
  is_array v = false ->
  Lens.parseStandardFields (without_custom doc) lens = Lens.parseStandardFields doc lens.
Proof.
  intros Hl Hv Hk.
  assert (Hl' : find (without_custom doc) "lens" = Some (erase "custom" lensJson)).
  { unfold without_custom. now rewrite find_update_member, Hl. }
  unfold Lens.parseStandardFields.
  rewrite (contains_find _ _ Hl), (at_key_find _ _ Hl),
    (contains_find _ _ Hl'), (at_key_find _ _ Hl').
  cbv zeta.
  unfold Lens.parseCustom, Lens.parseDistortion, Lens.parseDistortionShift,
    Lens.parseEntrancePupilOffset, Lens.parseExposureFalloff,
    Lens.parsePerspectiveShift, Lens.parseUndistortion.
  rewrite (contains_find_None _ _ (find_erase "custom" lensJson)).
  rewrite (at_key_find _ _ Hv), Hk, andb_false_r. cbn [andb].
  rewrite !contains_erase_ne, !at_key_erase_ne, !assignField_erase_ne by reflexivity.
  reflexivity.
Qed.

(** X19: a lens.custom that is not an array is ignored without an error:
    [Lens::parse] returns the same Lens and the same errors as on the
    document without lens.custom. *)
Theorem Lens_custom_not_array_is_ignored (doc lensJson v : json) (errors : Errors) :
  find doc "lens" = Some lensJson ->
  find lensJson "custom" = Some v ->
  is_array v = false ->
  Lens.parse doc errors = Lens.parse (without_custom doc) errors.
Proof.
  intros Hl Hv Hk.
  assert (Hl' : find (without_custom doc) "lens" = Some (erase "custom" lensJson)).
  { unfold without_custom. now rewrite find_update_member, Hl. }
  unfold Lens.parse.
  rewrite (contains_find _ _ Hl), (contains_find _ _ Hl'). cbn [negb andb].
  unfold without_custom at 1. unfold bind.
  rewrite Lens_parseStaticFields_update.
  destruct (Lens.parseStaticFields doc Lens.empty errors) as [lens errors1].
  now rewrite (@Lens_parseStandardFields_without_custom doc lensJson v lens Hl Hv Hk).
Qed.

(** *** Camera and Timing are kept whenever their section is an object *)

(** X20: once static.camera (timing) is an object, [Camera::parse]
    ([Timing::parse]) returns a present entity whatever the fields of the
    section hold; fields that fail validation only add errors. *)
Theorem object_section_is_kept (doc section : json) (errors : Errors) :
  is_object section = true ->
  (find2 doc "static" "camera" = Some section ->
   exists cam appended, Camera.parse doc errors = (Some cam, errors ++ appended))
  /\ (find doc "timing" = Some section ->
      exists timing appended, Timing.parse doc errors = (Some timing, errors ++ appended)).
Proof.
  intros Hobj. split; intros Hs.
  - destruct (Camera_parse_object doc errors Hs Hobj) as (cam & before & Hp & _).
    rewrite Hp. eauto.
  - destruct (Timing_parse_mode doc errors Hs Hobj) as (timing & before & after & Hp & _).
    rewrite Hp. eauto.
Qed.

(** *** Protocol.version *)

(** X21: on a protocol section whose name is a string, [Protocol::parse]
    returns a present Protocol exactly when version is a string that
    [std::regex_match] accepts for the pattern of line 308; the Protocol then
    holds that name and that version and no error is appended.  A version
    made of three dot-separated non-negative integers is always accepted. *)
Theorem Protocol_version_outcome (doc proJson : json) (name : string) (errors : Errors) :
  find doc "protocol" = Some proJson ->
  find proJson "name" = Some (JString name) ->
  (forall pro errors',
     Protocol.parse doc errors = Some (Some pro, errors')
     <-> errors' = errors
         /\ Protocol.name pro = name
         /\ find proJson "version" = Some (JString (Protocol.version pro))
         /\ Regex.regex_match (Protocol.version pro) version_pattern = true)
  /\ (forall major minor patch,
        decimal major = true -> decimal minor = true -> decimal patch = true ->
        find proJson "version" = Some (JString (dotted major minor patch)) ->
        Protocol.parse doc errors
        = Some (Some {| Protocol.name := name;
                        Protocol.version := dotted major minor patch |}, errors)).
Proof.
  intros Hp Hn. rewrite (Protocol_parse_string_name _ errors Hp Hn). split.
  - intros pro errors'. split.
    + destruct (find proJson "version") as [v|]; [ | discriminate ].
      destruct v; try discriminate.
      destruct (Regex.regex_match s version_pattern) eqn:Hm; [ | discriminate ].
      intros [= <- <-]. repeat split. exact Hm.
    + intros (-> & <- & -> & ->). destruct pro; reflexivity.
  - intros major minor patch H1 H2 H3 ->.
    now rewrite version_pattern_accepts_dotted.
Qed.

End Decoders.

(** ** The further properties on concrete documents *)

Lemma GlobalStage_present_iff_witness :
  GlobalStage.parse Sample.stage_doc ["earlier"]
  = (Some {| GlobalStage.e := double_of_integer 1; GlobalStage.n := double_of_integer 2;
             GlobalStage.u := double_of_integer 3;
             GlobalStage.lat0 := double_of_integer 9007199254740992;
             GlobalStage.lon0 := double_of_integer 5;
             GlobalStage.h0 := double_of_integer 6 |},
     ["earlier"]).
Proof.
  apply (proj2 (@GlobalStage_present_iff Sample.stage_doc Sample.stage ["earlier"]
                  _ ["earlier"] eq_refl)).
  repeat split.
Defined.

Lemma GlobalStage_absent_one_error_witness :
  exists msg,
    GlobalStage.parse Sample.broken_stage_doc ["earlier"] = (None, ["earlier"] ++ [msg]).
Proof.
  apply (@GlobalStage_absent_one_error Sample.broken_stage_doc Sample.broken_stage
           ["earlier"]); reflexivity.
Defined.

Lemma section_of_wrong_kind_witness :
  Camera.parse (P := Sample.types) Sample.wrong_kinds_doc []
  = (None, [] ++ ["field: camera isn't of type: object"])
  /\ Duration.parse Sample.wrong_kinds_doc []
     = (None, [] ++ ["field: duration isn't of type: object"])
  /\ GlobalStage.parse Sample.wrong_kinds_doc []
     = (None, [] ++ ["field: globalStage isn't of type: object"])
  /\ Timing.parse (P := Sample.types) Sample.wrong_kinds_doc []
     = (None, [] ++ ["field: timing isn't of type: object"])
  /\ RelatedSampleIds.parse Sample.wrong_kinds_doc []
     = (None, [] ++ ["field: relatedSampleIds isn't of type: array"])
  /\ Transforms.parse (P := Sample.types) Sample.wrong_kinds_doc []
     = (None, [] ++ ["Transforms is not an array."]).
Proof.
  pose proof (@section_of_wrong_kind Sample.types Sample.wrong_kinds_doc [])
    as (H1 & H2 & H3 & H4 & H5 & H6).
  exact (conj (H1 _ eq_refl eq_refl) (conj (H2 _ eq_refl eq_refl)
           (conj (H3 _ eq_refl eq_refl) (conj (H4 _ eq_refl eq_refl)
           (conj (H5 _ eq_refl eq_refl) (H6 _ eq_refl eq_refl)))))).
Defined.

Lemma flat_section_is_empty_entity_witness :
  Lens.parse (P := Sample.types) Sample.flat_sections_doc ["earlier"]
  = (Some Lens.empty, ["earlier"])
  /\ Tracker.parse Sample.flat_sections_doc ["earlier"] = (Some Tracker.empty, ["earlier"]).
Proof.
  pose proof (@flat_section_is_empty_entity Sample.types Sample.flat_sections_doc
                ["earlier"]) as (H1 & H2).
  exact (conj (H1 _ eq_refl eq_refl eq_refl) (H2 _ eq_refl eq_refl eq_refl)).
Defined.

Lemma SampleId_StreamId_outcome_witness :
  (exists s,
     JString "urn:uuid:12345678-1234-1234-1234-123456789abc" = JString s
     /\ SampleId.parse Sample.ids_doc [] = (Some {| SampleId.id := s |}, []))
  /\ (exists msg, StreamId.parse Sample.ids_doc [] = (None, [] ++ [msg])).
Proof.
  pose proof (SampleId_StreamId_outcome Sample.ids_doc []) as (H1 & H2).
  exact (conj (H1 _ eq_refl) (H2 _ eq_refl)).
Defined.

Lemma Transforms_keeps_accepted_elements_witness :
  Transforms.parse (P := Sample.types) Sample.transforms_doc ["earlier"]
  = (Some {| Transforms.transforms :=
               ([JObject []; JObject [("id", JString "crane")]]
                : list (@Transform Sample.types)) |},
     ["earlier"; "field: transform isn't of type: object"]).
Proof.
  exact (@Transforms_keeps_accepted_elements Sample.types Sample.transforms_doc
           Sample.transform_items ["earlier"] eq_refl).
Defined.

Lemma Duration_object_is_rejected_witness :
  exists before,
    Duration.parse Sample.broken_duration_doc ["earlier"]
    = (None, ["earlier"] ++ before ++ ["field: duration is missing required fields"]).
Proof.
  apply (@Duration_object_is_rejected Sample.broken_duration_doc Sample.broken_duration
           ["earlier"]); reflexivity.
Defined.

Lemma Synchronization_required_fields_witness :
  exists sync errors',
    Timing.parseSynchronization (P := Sample.types) Sample.groups_sync [] = (Some sync, errors')
    /\ exists freqJson,
         find Sample.groups_sync "frequency" = Some freqJson
         /\ fst (Rational_parse freqJson) = Some (Timing.frequency sync)
         /\ find Sample.groups_sync "locked" = Some (JBool (Timing.locked sync))
         /\ find Sample.groups_sync "source"
            = Some (JString (source_name (Timing.source sync))).
Proof.
  destruct (Timing.parseSynchronization (P := Sample.types) Sample.groups_sync [])
    as [[sync|] errors'] eqn:H; [ | vm_compute in H; discriminate ].
  exists sync, errors'. split; [ reflexivity | ].
  exact (@Synchronization_required_fields Sample.types Sample.groups_sync [] errors' sync H).
Defined.

Lemma Synchronization_with_required_fields_witness :
  exists sync appended,
    Timing.parseSynchronization (P := Sample.types) Sample.groups_sync ["earlier"]
    = (Some sync, ["earlier"] ++ [] ++ appended)
    /\ Timing.frequency sync = JObject []
    /\ Timing.locked sync = true
    /\ Timing.source sync = Timing.GEN_LOCK.
Proof.
  apply (@Synchronization_with_required_fields Sample.types Sample.groups_sync
           (JObject [])); reflexivity.
Defined.

Lemma Synchronization_unknown_source_witness :
  Timing.parseSynchronization (P := Sample.types) Sample.wordclock_sync ["earlier"]
  = (None,
     ["earlier"] ++ []
     ++ ["field: timing/synchronization/source isn't a valid enumeration"]).
Proof.
  apply (@Synchronization_unknown_source Sample.types Sample.wordclock_sync (JObject [])
           (JObject []) [] false "wordclock");
    try reflexivity.
  intros source. destruct source; simpl; discriminate.
Defined.

Lemma Camera_shutterAngle_kept_witness :
  exists cam errors',
    Camera.parse (P := Sample.types) Sample.camera_doc [] = (Some cam, errors')
    /\ Camera.shutterAngle cam = Some 180000
    /\ find3 Sample.camera_doc "static" "camera" "shutterAngle" = Some (JInt 180000)
    /\ 180000 <= 360000.
Proof.
  destruct (Camera.parse (P := Sample.types) Sample.camera_doc [])
    as [[cam|] errors'] eqn:H; [ | vm_compute in H; discriminate ].
  assert (Hs : Camera.shutterAngle cam = Some 180000).
  { vm_compute in H. now injection H as <- _. }
  exists cam, errors'. split; [ reflexivity | ]. split; [ exact Hs | ].
  exact (@Camera_shutterAngle_kept Sample.types Sample.camera_doc [] errors' cam 180000 H Hs).
Defined.

Lemma Camera_shutterAngle_above_range_witness :
  exists cam before,
    Camera.parse (P := Sample.types) Sample.wide_camera_doc ["earlier"]
    = (Some cam,
       ["earlier"] ++ before
       ++ ["field: shutterAngle is outside the expected range 1 - 360000."])
    /\ Camera.shutterAngle cam = None.
Proof.
  apply (@Camera_shutterAngle_above_range Sample.types Sample.wide_camera_doc
           Sample.wide_camera_section 400000 ["earlier"]);
    [ reflexivity | reflexivity | lia ].
Defined.

Lemma kept_strings_match_patterns_witness :
  Regex.regex_match "urn:uuid:12345678-1234-1234-1234-123456789abc" uuid_pattern = true
  /\ (exists sync errors' ptp s,
        Timing.parseSynchronization (P := Sample.types) Sample.groups_sync []
        = (Some sync, errors')
        /\ Timing.ptp sync = Some ptp /\ Timing.master ptp = Some s
        /\ Regex.regex_match s mac_pattern = true).
Proof.
  split.
  - apply (proj1 (proj2 (@kept_strings_match_patterns Sample.types Sample.ids_doc JNull
                           [] []))
             {| SampleId.id := "urn:uuid:12345678-1234-1234-1234-123456789abc" |}).
    vm_compute. reflexivity.
  - destruct (Timing.parseSynchronization (P := Sample.types) Sample.groups_sync [])
      as [[sync|] errors'] eqn:H; [ | vm_compute in H; discriminate ].
    assert (Hp : Timing.ptp sync
                 = Some {| Timing.domain := None; Timing.offset := None;
                           Timing.master := Some "00:1A:2B:3C:4D:5E" |}).
    { vm_compute in H. now injection H as <- _. }
    exists sync, errors', {| Timing.domain := None; Timing.offset := None;
                             Timing.master := Some "00:1A:2B:3C:4D:5E" |},
      "00:1A:2B:3C:4D:5E".
    split; [ reflexivity | ]. split; [ exact Hp | ]. split; [ reflexivity | ].
    exact (proj2 (proj2 (proj2 (proj2 (proj2
             (@kept_strings_match_patterns Sample.types JNull Sample.groups_sync []
                errors'))))) sync _ _ H Hp eq_refl).
Defined.

Lemma Tracker_parse_fields_witness :
  exists tkr errors',
    Tracker.parse Sample.tracker_doc ["earlier"] = (Some tkr, errors')
    /\ Tracker.make tkr = Some "Acme"
    /\ Tracker.model tkr = None
    /\ Tracker.notes tkr = Some "take 3"
    /\ Tracker.recording tkr = None
    /\ exists appended, errors' = ["earlier"] ++ appended /\ List.length appended = 2%nat.
Proof.
  destruct (Tracker.parse Sample.tracker_doc ["earlier"])
    as [[tkr|] errors'] eqn:H; [ | vm_compute in H; discriminate ].
  exists tkr, errors'. split; [ reflexivity | ].
  destruct (@Tracker_parse_fields Sample.tracker_doc ["earlier"] errors' tkr H)
    as (_ & H2 & H3 & _ & H5 & H6 & _ & _ & H9).
  exact (conj H2 (conj H3 (conj H5 (conj H6 H9)))).
Defined.

Lemma Lens_static_fields_witness :
  exists lens errors',
    Lens.parse (P := Sample.types) Sample.lens_doc [] = (Some lens, errors')
    /\ Lens.make lens = Some "Acme"
    /\ Lens.model lens = None
    /\ Lens.nominalFocalLength lens = Some (double_of_integer 35).
Proof.
  destruct (Lens.parse (P := Sample.types) Sample.lens_doc [])
    as [[lens|] errors'] eqn:H; [ | vm_compute in H; discriminate ].
  exists lens, errors'. split; [ reflexivity | ].
  destruct (@Lens_static_fields Sample.types Sample.lens_doc [] errors' lens H)
    as (_ & H2 & H3 & H4 & _).
  exact (conj H2 (conj H3 H4)).
Defined.

Lemma Lens_groups_witness :
  exists lens errors',
    Lens.parse (P := Sample.types) Sample.lens_doc [] = (Some lens, errors')
    /\ Lens.custom lens = None
    /\ Lens.distortionShift lens = None
    /\ Lens.entrancePupilOffset lens
       = Some {| Lens.numerator := 1; Lens.denominator := 2 |}
    /\ Lens.exposureFalloff lens = None
    /\ Lens.perspectiveShift lens
       = Some {| Lens.perspectiveShift_x := double_of_integer 1;
                 Lens.perspectiveShift_y := double_of_integer 2 |}.
Proof.
  destruct (Lens.parse (P := Sample.types) Sample.lens_doc [])
    as [[lens|] errors'] eqn:H; [ | vm_compute in H; discriminate ].
  exists lens, errors'. split; [ reflexivity | ].
  exact (@Lens_groups Sample.types Sample.lens_doc [] errors' lens H).
Defined.

Lemma Lens_custom_not_array_is_ignored_witness :
  Lens.parse (P := Sample.types) Sample.lens_doc ["earlier"]
  = Lens.parse (without_custom Sample.lens_doc) ["earlier"].
Proof.
  apply (@Lens_custom_not_array_is_ignored Sample.types Sample.lens_doc
           Sample.lens_section (JString "none") ["earlier"]); reflexivity.
Defined.

Lemma Protocol_version_outcome_witness :
  Protocol.parse Sample.protocol_doc ["earlier"]
  = Some (Some {| Protocol.name := "OpenTrackIO"; Protocol.version := dotted "1" "0" "12" |},
          ["earlier"]).
Proof.
  apply (proj2 (@Protocol_version_outcome Sample.protocol_doc Sample.protocol_section
                  "OpenTrackIO" ["earlier"] eq_refl eq_refl) "1" "0" "12");
    reflexivity.
Defined.

Lemma object_section_is_kept_witness :
  (exists cam appended,
     Camera.parse (P := Sample.types) Sample.camera_doc ["earlier"]
     = (Some cam, ["earlier"] ++ appended))
  /\ (exists timing appended,
        Timing.parse (P := Sample.types) Sample.unlocked_doc ["earlier"]
        = (Some timing, ["earlier"] ++ appended)).
Proof.
  split.
  - apply (proj1 (@object_section_is_kept Sample.types Sample.camera_doc
                    Sample.camera_section ["earlier"] eq_refl) eq_refl).
  - apply (proj2 (@object_section_is_kept Sample.types Sample.unlocked_doc
                    Sample.unlocked_timing ["earlier"] eq_refl) eq_refl).
Defined.
